(** * file-mover-service: the watch-and-move service of [src/service.ts]

    A shallow embedding of the service: the mover [moveFile] with its
    bounded retry on [EBUSY], the watcher set-up [startWatching] with its two
    listeners, and the start-up sequence [startService].

    The program talks to the file system and the rest of the machine through
    fs-extra, chokidar, dotenv and Node's [path].  Their primitives are the
    fields of the class [Platform]; every theorem about the service holds for
    every platform, and so for every sequence of outcomes the file system may
    give.  What the service writes to the winston logger and to the console is
    recorded, with its other effects, in the trace of the [World].  A small
    simulated platform at the end of the definitions runs the service on
    concrete inputs.

    A JavaScript [number] is modelled as an integer [Z]; a [Promise] as the
    completion it settles with.  An asynchronous task is run to completion at
    the point where it is started; what other processes do to the file system
    while the task waits is the platform's [elapse]. *)

From stdpp Require Import gmap strings pretty list.

Local Open Scope Z_scope.

(** ** Values shared with the libraries *)

(** A JavaScript [Error] as the service reads it: [error.code] (absent on
    errors that carry none) and [error.message]. *)
Record JsError : Type := mkError {
  err_code : option string;
  err_message : string;
}.

#[global] Instance JsError_eq_dec : EqDecision JsError.
Proof. solve_decision. Defined.

(** The options object handed to [fs.move]. *)
Record MoveOptions : Type := { overwrite : bool }.

#[global] Instance MoveOptions_eq_dec : EqDecision MoveOptions.
Proof. solve_decision. Defined.

(** The options object handed to [chokidar.watch]. *)
Record WatchOptions : Type := {
  persistent : bool;
  ignoreInitial : bool;
  usePolling : bool;
  interval : Z;
}.

(** What one look at the watched directory yields: the paths of the files
    below it, or a file-system error. *)
Inductive Scan : Type :=
| ScanFiles (files : list string)
| ScanError (e : JsError).

(** The three severities of the winston logger. *)
Inductive Level : Type := LInfo | LWarn | LError.

#[global] Instance Level_eq_dec : EqDecision Level.
Proof. solve_decision. Defined.

(** Events a chokidar watcher emits to its listeners. *)
Inductive WatchEvent : Type :=
| EvAdd (filePath : string)
| EvError (e : JsError).

(** Everything the service does that an observer can see, in order. *)
Inductive Effect : Type :=
| Log (lvl : Level) (message : string)
| ConsoleLog (message : string)
| ConsoleError (message : string)
| FsMove (src dest : string) (opts : MoveOptions) (outcome : option JsError)
| FsWriteFile (file data : string) (outcome : option JsError)
| FsEnsureDir (dir : string) (outcome : option JsError)
| Delay (ms : Z)
| Poll (ms : Z)
| Emit (ev : WatchEvent)
| UnhandledRejection (e : JsError).

(** The two arrow functions [startWatching] attaches, as data: the [add]
    listener closes over [destDir], the [error] listener over nothing. *)
Inductive Listener : Type :=
| AddListener (destDir : string)
| ErrorListener.

(** How a piece of code ends: a value (a promise resolved, a function
    returned), an exception (a promise rejected), or [process.exit]. *)
Inductive Completion (A : Type) : Type :=
| Resolved (a : A)
| Rejected (e : JsError)
| Exited (code : Z).
Arguments Resolved {A} a.
Arguments Rejected {A} e.
Arguments Exited {A} code.

(** ** The platform *)

Class Platform : Type := {
  (** the state of the file system, with whatever else the outside world
      keeps (locks held by other processes, their schedule) *)
  FS : Type;
  (** [process.cwd()] *)
  process_cwd : string;
  (** [path.join] and [path.basename] *)
  path_join : string → string → string;
  path_basename : string → string;
  (** [fs.move(src, dest, opts)]: [None] when the promise resolves, the error
      when it rejects *)
  os_move : string → string → MoveOptions → FS → option JsError * FS;
  (** [fs.pathExists(p)], which never rejects *)
  os_pathExists : string → FS → bool;
  (** [fs.writeFile(file, data, 'utf8')] *)
  os_writeFile : string → string → FS → option JsError * FS;
  (** [fs.ensureDir(dir)] *)
  os_ensureDir : string → FS → option JsError * FS;
  (** [dotenv.config({ path })]: the new [process.env] *)
  os_dotenv : string → FS → gmap string string → gmap string string;
  (** whether [chokidar.watch(dir, opts)] throws instead of returning *)
  os_watch_throws : string → WatchOptions → FS → option JsError;
  (** what a chokidar scan of the directory sees *)
  os_scan : string → FS → Scan;
  (** what the rest of the machine does during a wait of [ms] milliseconds *)
  elapse : Z → FS → FS;
}.

Section Service.

Context `{P : Platform}.

(** ** The state of the process *)

(** A chokidar watcher. *)
Record Watcher : Type := {
  w_path : string;
  w_options : WatchOptions;
  w_listeners : list Listener;
  (** the files seen by the latest scan *)
  w_known : list string;
}.

Record World : Type := {
  fsys : FS;
  (** [process.env] *)
  env : gmap string string;
  (** the watcher created by [startWatching], if any *)
  watcher : option Watcher;
  (** the effects so far, oldest first *)
  trace : list Effect;
}.

Definition set_fsys (fs : FS) (w : World) : World :=
  {| fsys := fs; env := env w; watcher := watcher w; trace := trace w |}.
Definition set_env (e : gmap string string) (w : World) : World :=
  {| fsys := fsys w; env := e; watcher := watcher w; trace := trace w |}.
Definition set_watcher (wt : option Watcher) (w : World) : World :=
  {| fsys := fsys w; env := env w; watcher := wt; trace := trace w |}.
Definition emit_effects (es : list Effect) (w : World) : World :=
  {| fsys := fsys w; env := env w; watcher := watcher w; trace := trace w ++ es |}.

(** Code of the service: a function of the world. *)
Definition M (A : Type) : Type := World → Completion A * World.

#[global] Instance M_ret : MRet M := λ A a w, (Resolved a, w).
#[global] Instance M_bind : MBind M := λ A B f m w,
  match m w with
  | (Resolved a, w') => f a w'
  | (Rejected e, w') => (Rejected e, w')
  | (Exited c, w') => (Exited c, w')
  end.

(** [try { body } catch (error) { handler error }] *)
Definition try_catch {A} (body : M A) (handler : JsError → M A) : M A := λ w,
  match body w with
  | (Rejected e, w') => handler e w'
  | r => r
  end.

Definition perform (e : Effect) : M unit := λ w, (Resolved tt, emit_effects [e] w).

(** [process.exit(code)] *)
Definition process_exit {A} (code : Z) : M A := λ w, (Exited code, w).

(** A settled promise of the platform becomes a return or a throw. *)
Definition settle (r : option JsError) : M unit := λ w,
  match r with
  | None => (Resolved tt, w)
  | Some e => (Rejected e, w)
  end.

(** *** The logger and the console *)

Definition logger_info (message : string) : M unit := perform (Log LInfo message).
Definition logger_warn (message : string) : M unit := perform (Log LWarn message).
Definition logger_error (message : string) : M unit := perform (Log LError message).
Definition console_log (message : string) : M unit := perform (ConsoleLog message).
Definition console_error (message : string) : M unit := perform (ConsoleError message).

(** [`${error}`] for an [Error] *)
Definition error_toString (e : JsError) : string := "Error: " +:+ err_message e.

(** *** fs-extra *)

(** [await fs.move(src, dest, opts)] *)
Definition fs_move (src dest : string) (opts : MoveOptions) : M unit := λ w,
  let '(r, fs') := os_move src dest opts (fsys w) in
  settle r (emit_effects [FsMove src dest opts r] (set_fsys fs' w)).

(** [await fs.pathExists(p)] *)
Definition fs_pathExists (p : string) : M bool := λ w,
  (Resolved (os_pathExists p (fsys w)), w).

(** [await fs.writeFile(file, data, 'utf8')] *)
Definition fs_writeFile (file data : string) : M unit := λ w,
  let '(r, fs') := os_writeFile file data (fsys w) in
  settle r (emit_effects [FsWriteFile file data r] (set_fsys fs' w)).

(** [await fs.ensureDir(dir)] *)
Definition fs_ensureDir (dir : string) : M unit := λ w,
  let '(r, fs') := os_ensureDir dir (fsys w) in
  settle r (emit_effects [FsEnsureDir dir r] (set_fsys fs' w)).

(** [await new Promise(resolve => setTimeout(resolve, ms))] *)
Definition sleep (ms : Z) : M unit := λ w,
  (Resolved tt, emit_effects [Delay ms] (set_fsys (elapse ms (fsys w)) w)).

(** ** Paths of the log directory and of the [.env] file *)

Definition appDir : string := process_cwd.
Definition logDir : string := path_join appDir "logs".
Definition logFilePath : string := path_join logDir "file-mover-service.log".
Definition envFilePath : string := path_join appDir ".env".

Definition newline : string := String (Ascii.ascii_of_nat 10) "".

Definition defaultEnvContent : string :=
  "SRC=./src" +:+ newline +:+ "DEST=./dest" +:+ newline +:+
  "FILE_NAME=example.txt" +:+ newline.

(** ** The mover *)

(** [(error as any).code === 'EBUSY'] *)
Definition is_busy (error : JsError) : bool :=
  bool_decide (err_code error = Some "EBUSY").

(** The value of [retries] when the caller passes none. *)
Definition default_retries : Z := 3.

(** [moveFile], by recursion on a counter that bounds the depth of the
    self-calls.  [moveFile] below starts it at [Z.to_nat retries], which the
    self-calls never exhaust: see [moveFile_unfold]. *)
Fixpoint moveFile_rec (depth : nat) (srcPath destPath : string) (retries : Z)
  : M unit :=
  try_catch
    (logger_info ("Attempting to move file from " +:+ srcPath +:+ " to " +:+ destPath) ;;
     fs_move srcPath destPath {| overwrite := true |} ;;
     logger_info ("File moved successfully from " +:+ srcPath +:+ " to " +:+ destPath))
    (λ error,
       if bool_decide (retries > 0) && is_busy error then
         logger_warn ("File is in use. Retrying... (" +:+ pretty retries +:+ " retries left)") ;;
         sleep 1000 ;;
         match depth with
         | S depth' => moveFile_rec depth' srcPath destPath (retries - 1)
         | O => mret tt
         end
       else
         logger_error ("Error moving file: " +:+ err_message error)).

Definition moveFile (srcPath destPath : string) (retries : Z) : M unit :=
  moveFile_rec (Z.to_nat retries) srcPath destPath retries.

(** ** Start-up: the [.env] file, the log directory, the environment *)

(** [ensureEnvFile] *)
Definition ensureEnvFile : M unit :=
  try_catch
    (present ← fs_pathExists envFilePath;
     if negb present then
       fs_writeFile envFilePath defaultEnvContent ;;
       console_log ".env file created with default values."
     else mret tt)
    (λ error,
       console_error ("Error creating .env file: " +:+ error_toString error) ;;
       process_exit 1).

(** [ensureLogDirectory] *)
Definition ensureLogDirectory : M unit :=
  try_catch
    (fs_ensureDir logDir ;;
     console_log ("Log directory is set at: " +:+ logDir))
    (λ error,
       console_error ("Error creating log directory: " +:+ error_toString error) ;;
       process_exit 1).

(** [dotenv.config({ path })] *)
Definition dotenv_config (file : string) : M unit := λ w,
  (Resolved tt, set_env (os_dotenv file (fsys w) (env w)) w).

(** [process.env.NAME] *)
Definition process_env (name : string) : M (option string) := λ w,
  (Resolved (env w !! name), w).

(** [!v] for a value that is a string or [undefined] *)
Definition not_set (v : option string) : bool :=
  match v with
  | None => true
  | Some s => bool_decide (s = "")
  end.

(** [loadEnv] *)
Definition loadEnv : M (string * string * string) :=
  ensureEnvFile ;;
  dotenv_config envFilePath ;;
  srcDir ← process_env "SRC";
  destDir ← process_env "DEST";
  fileName ← process_env "FILE_NAME";
  if not_set srcDir || not_set destDir || not_set fileName then
    console_error "Error: SRC, DEST, and FILE_NAME must be defined in the environment variables" ;;
    process_exit 1
  else
    mret (default "" srcDir, default "" destDir, default "" fileName).

(** ** The watcher *)

(** A call whose promise nobody awaits or catches: the caller goes on
    whatever the task does, and a rejection is left unhandled. *)
Definition spawn (task : M unit) : M unit := λ w,
  match task w with
  | (Resolved _, w') => (Resolved tt, w')
  | (Rejected e, w') => (Resolved tt, emit_effects [UnhandledRejection e] w')
  | (Exited c, w') => (Exited c, w')
  end.

(** The [add] listener of [startWatching]. *)
Definition onAdd (destDir filePath : string) : M unit :=
  let fileName := path_basename filePath in
  let destPath := path_join destDir fileName in
  logger_info ("Detected new file: " +:+ fileName) ;;
  spawn (moveFile filePath destPath default_retries).

(** The [error] listener of [startWatching]. *)
Definition onError (error : JsError) : M unit :=
  logger_error ("Watcher error: " +:+ err_message error).

(** The call a listener makes of an event, if it listens to it. *)
Definition listener_call (ev : WatchEvent) (l : Listener) : option (M unit) :=
  match l, ev with
  | AddListener destDir, EvAdd filePath => Some (onAdd destDir filePath)
  | ErrorListener, EvError error => Some (onError error)
  | _, _ => None
  end.

Definition run_each (calls : list (M unit)) : M unit :=
  foldr (λ call rest, call ;; rest) (mret tt) calls.

(** Modelled from the spec: the events of the watcher, whose emitter is not
    part of the repository.  Every listener attached for an event is invoked,
    in the order of attachment.  As in Node, an [error] event nobody listens
    to is thrown. *)
Definition emit (ev : WatchEvent) : M unit := λ w,
  let calls := omap (listener_call ev) (from_option w_listeners [] (watcher w)) in
  match ev, calls with
  | EvError e, [] => (Rejected e, emit_effects [Emit ev] w)
  | _, _ => run_each calls (emit_effects [Emit ev] w)
  end.

(** Modelled from the spec: the chokidar watcher, a dependency whose code is
    not part of the repository.  [chokidar.watch] looks at the directory once;
    with [ignoreInitial] the files it finds there count as known, without it
    none does, so that the first poll reports them.  Whether the call throws
    is the platform's [os_watch_throws]. *)
Definition chokidar_watch (dir : string) (opts : WatchOptions) : M unit := λ w,
  match os_watch_throws dir opts (fsys w) with
  | Some e => (Rejected e, w)
  | None =>
    let present :=
      match os_scan dir (fsys w) with
      | ScanFiles files => files
      | ScanError _ => []
      end in
    (Resolved tt,
     set_watcher (Some {| w_path := dir; w_options := opts; w_listeners := [];
                          w_known := if ignoreInitial opts then present else [] |}) w)
  end.

(** Modelled from the spec: [watcher.on(event, listener)] adds the listener
    after the ones attached before. *)
Definition watcher_on (l : Listener) : M unit := λ w,
  (Resolved tt,
   set_watcher
     ((λ wt, {| w_path := w_path wt; w_options := w_options wt;
                w_listeners := w_listeners wt ++ [l];
                w_known := w_known wt |}) <$> watcher w) w).

(** The files of a scan the watcher has not seen in the scan before. *)
Definition fresh_files (known files : list string) : list string :=
  filter (λ f, f ∉ known) files.

(** Modelled from the spec: one polling tick of the chokidar watcher.  After
    [interval] milliseconds the directory is scanned; a file that the scan
    before did not show is reported by an [add] event, a scan that fails by an
    [error] event.  Without [usePolling] the watcher does not poll. *)
Definition chokidar_poll : M unit := λ w,
  match watcher w with
  | None => (Resolved tt, w)
  | Some wt =>
    if usePolling (w_options wt) then
      let ms := interval (w_options wt) in
      let w1 := emit_effects [Poll ms] (set_fsys (elapse ms (fsys w)) w) in
      match os_scan (w_path wt) (fsys w1) with
      | ScanError e => emit (EvError e) w1
      | ScanFiles files =>
        let seen := {| w_path := w_path wt; w_options := w_options wt;
                       w_listeners := w_listeners wt; w_known := files |} in
        run_each (emit <$> (EvAdd <$> fresh_files (w_known wt) files))
                 (set_watcher (Some seen) w1)
      end
    else (Resolved tt, w)
  end.

(** The event loop serving [n] polling ticks. *)
Fixpoint run_polls (n : nat) : M unit :=
  match n with
  | O => mret tt
  | S k => chokidar_poll ;; run_polls k
  end.

(** [startWatching] *)
Definition startWatching (srcDir destDir : string) : M unit :=
  chokidar_watch srcDir {| persistent := true; ignoreInitial := true;
                           usePolling := true; interval := 1000 |} ;;
  watcher_on (AddListener destDir) ;;
  watcher_on ErrorListener ;;
  logger_info ("Watching directory: " +:+ srcDir).

(** [startService] *)
Definition startService : M unit :=
  ensureLogDirectory ;;
  '(srcDir, destDir, fileName) ← loadEnv;
  startWatching srcDir destDir.

(** The last statement of the module: [startService()], not awaited. *)
Definition main : M unit := spawn startService.

(** ** Reading a trace *)

Definition is_log (lvl : Level) (e : Effect) : bool :=
  match e with
  | Log l _ => bool_decide (l = lvl)
  | _ => false
  end.

Definition is_attempt (e : Effect) : bool :=
  match e with
  | FsMove _ _ _ _ => true
  | _ => false
  end.

Definition is_effective_move (e : Effect) : bool :=
  match e with
  | FsMove _ _ _ None => true
  | _ => false
  end.

Definition is_delay (e : Effect) : bool :=
  match e with
  | Delay _ => true
  | _ => false
  end.

Definition count (p : Effect → bool) (es : list Effect) : nat :=
  length (List.filter p es).

(** The effects a piece of code added to the trace, from the worlds before
    and after it. *)
Definition produced (w w' : World) : list Effect :=
  drop (length (trace w)) (trace w').

(** The lines of [moveFile]. *)
Definition msg_attempt (srcPath destPath : string) : string :=
  "Attempting to move file from " +:+ srcPath +:+ " to " +:+ destPath.
Definition msg_moved (srcPath destPath : string) : string :=
  "File moved successfully from " +:+ srcPath +:+ " to " +:+ destPath.
Definition msg_retry (retries : Z) : string :=
  "File is in use. Retrying... (" +:+ pretty retries +:+ " retries left)".
Definition msg_failed (error : JsError) : string :=
  "Error moving file: " +:+ err_message error.

(** The options of every [fs.move] call of the service. *)
Definition move_options : MoveOptions := {| overwrite := true |}.

(** The runs of the mover, as a state machine: an attempt succeeds, or it
    fails busy with retries left and the mover waits and attempts again, or it
    fails for good.  [mover_run s d r fs es fs'] reads: started with [r]
    retries on the file system [fs], the mover has the effects [es] and leaves
    the file system [fs']. *)
Inductive mover_run (srcPath destPath : string)
  : Z → FS → list Effect → FS → Prop :=
| run_moved retries fs fs' :
    os_move srcPath destPath move_options fs = (None, fs') →
    mover_run srcPath destPath retries fs
      [Log LInfo (msg_attempt srcPath destPath);
       FsMove srcPath destPath move_options None;
       Log LInfo (msg_moved srcPath destPath)] fs'
| run_retry retries fs error fs1 es fs' :
    os_move srcPath destPath move_options fs = (Some error, fs1) →
    retries > 0 →
    is_busy error = true →
    mover_run srcPath destPath (retries - 1) (elapse 1000 fs1) es fs' →
    mover_run srcPath destPath retries fs
      ([Log LInfo (msg_attempt srcPath destPath);
        FsMove srcPath destPath move_options (Some error);
        Log LWarn (msg_retry retries);
        Delay 1000] ++ es) fs'
| run_failed retries fs error fs1 :
    os_move srcPath destPath move_options fs = (Some error, fs1) →
    bool_decide (retries > 0) && is_busy error = false →
    mover_run srcPath destPath retries fs
      [Log LInfo (msg_attempt srcPath destPath);
       FsMove srcPath destPath move_options (Some error);
       Log LError (msg_failed error)] fs1.

(** The next [n + 1] attempts to move the file all fail busy. *)
Fixpoint always_busy (n : nat) (srcPath destPath : string) (fs : FS) : Prop :=
  ∃ error fs1,
    os_move srcPath destPath move_options fs = (Some error, fs1) ∧
    err_code error = Some "EBUSY" ∧
    match n with
    | O => True
    | S k => always_busy k srcPath destPath (elapse 1000 fs1)
    end.

(** fs-extra's error for a destination that exists and may not be replaced,
    told by its message. *)
Definition is_dest_exists (error : JsError) : Prop :=
  err_message error = "dest already exists.".

(** What a run of the mover may contain: its log lines, waits of one second,
    and [fs.move] calls on the two paths with [overwrite] set. *)
Definition mover_effect (srcPath destPath : string) (e : Effect) : Prop :=
  match e with
  | Log _ _ => True
  | FsMove src dest opts _ =>
    src = srcPath ∧ dest = destPath ∧ opts = move_options
  | Delay ms => ms = 1000
  | _ => False
  end.

(** The line of the [add] listener. *)
Definition msg_detected (filePath : string) : string :=
  "Detected new file: " +:+ path_basename filePath.

(** The options [startWatching] hands to [chokidar.watch]. *)
Definition watch_options : WatchOptions :=
  {| persistent := true; ignoreInitial := true; usePolling := true;
     interval := 1000 |}.

(** The files in the directory when watching begins. *)
Definition initial_files (srcDir : string) (fs : FS) : list string :=
  match os_scan srcDir fs with
  | ScanFiles files => files
  | ScanError _ => []
  end.

(** The watcher as [startWatching] leaves it, up to the files it knows. *)
Definition service_watcher (srcDir destDir : string) (known : list string)
  : Watcher :=
  {| w_path := srcDir; w_options := watch_options;
     w_listeners := [AddListener destDir; ErrorListener];
     w_known := known |}.

(** The world is one of the running service: its watcher is the one of
    [startWatching], with some files known. *)
Definition serving (srcDir destDir : string) (w : World) : Prop :=
  ∃ known, watcher w = Some (service_watcher srcDir destDir known).

(** The effects of reporting the files of a list one after the other, each
    by its [add] event, the line of the listener and a run of the mover. *)
Inductive adds_run (destDir : string)
  : list string → FS → list Effect → FS → Prop :=
| adds_none fs : adds_run destDir [] fs [] fs
| adds_next filePath files fs es fs1 es' fs' :
    mover_run filePath (path_join destDir (path_basename filePath))
      default_retries fs es fs1 →
    adds_run destDir files fs1 es' fs' →
    adds_run destDir (filePath :: files) fs
      (Emit (EvAdd filePath) :: Log LInfo (msg_detected filePath) :: es ++ es')
      fs'.

(** The paths of the [add] events of a trace, in order. *)
Definition add_events (es : list Effect) : list string :=
  omap (λ e, match e with Emit (EvAdd f) => Some f | _ => None end) es.

(** The file is shown by each of the next [n] scans of the directory that
    succeed: it is not taken away while the service polls. *)
Fixpoint stays_listed (n : nat) (srcDir f : string) (w : World) : Prop :=
  match n with
  | O => True
  | S k =>
    match os_scan srcDir (elapse 1000 (fsys w)) with
    | ScanFiles files => f ∈ files
    | ScanError _ => True
    end ∧ stays_listed k srcDir f (chokidar_poll w).2
  end.

(** The effects that tell of a failure to whoever reads the log or the
    console. *)
Definition is_failure_report (e : Effect) : bool :=
  match e with
  | Log LError _ | ConsoleError _ | UnhandledRejection _ => true
  | _ => false
  end.

(** The source file stays where it is through a move of it onto the
    destination that fails, and through the second that the mover waits. *)
Definition stays_in_place (srcPath destPath : string) : Prop :=
  (∀ fs error fs1,
     os_move srcPath destPath move_options fs = (Some error, fs1) →
     os_pathExists srcPath fs = true → os_pathExists srcPath fs1 = true) ∧
  (∀ fs, os_pathExists srcPath fs = true →
         os_pathExists srcPath (elapse 1000 fs) = true).

(** The messages of the warnings of a trace, in order. *)
Definition warn_lines (es : list Effect) : list string :=
  omap (λ e, match e with Log LWarn m => Some m | _ => None end) es.

(** The milliseconds waited in a trace. *)
Definition total_delay (es : list Effect) : Z :=
  foldr (λ e ms, match e with Delay d => d + ms | _ => ms end) 0 es.

(** The numbers [retries], [retries - 1], ... : [n] of them. *)
Definition countdown (retries : Z) (n : nat) : list Z :=
  (λ k : nat, retries - Z.of_nat k) <$> seq 0 n.

(** The next [k] attempts to move the file fail busy and the one after them
    takes effect. *)
Fixpoint busy_then_free (k : nat) (srcPath destPath : string) (fs : FS) : Prop :=
  match k with
  | O => ∃ fs', os_move srcPath destPath move_options fs = (None, fs')
  | S j =>
    ∃ error fs1,
      os_move srcPath destPath move_options fs = (Some error, fs1) ∧
      err_code error = Some "EBUSY" ∧
      busy_then_free j srcPath destPath (elapse 1000 fs1)
  end.

(** [process.env] as [dotenv.config] leaves it in [loadEnv], that is after
    [ensureEnvFile]. *)
Definition env_loaded (w : World) : gmap string string :=
  os_dotenv envFilePath (fsys (ensureEnvFile w).2) (env w).

(** What start-up may do before it watches: create the log directory, write
    the [.env] file, and write to the console. *)
Definition startup_effect (e : Effect) : Prop :=
  match e with
  | FsEnsureDir _ _ | FsWriteFile _ _ _ | ConsoleLog _ | ConsoleError _ => True
  | _ => False
  end.

(** The line of [loadEnv] for a value that is missing. *)
Definition msg_undefined : string :=
  "Error: SRC, DEST, and FILE_NAME must be defined in the environment variables".

End Service.

(** ** A simulated platform

    A POSIX machine small enough to compute with: files with their
    contents, directories, files held open by another process for some more
    milliseconds, and paths the service has no permission on. *)

Module Sim.

Record SimFS : Type := {
  (** the files, each with its content *)
  sim_files : list (string * string);
  sim_dirs : list string;
  (** files another process holds open, each for so many more milliseconds *)
  sim_busy : list (string * Z);
  (** paths the service has no permission on *)
  sim_denied : list string;
  (** files another process will create, each in so many milliseconds *)
  sim_incoming : list (Z * (string * string));
}.

Definition lookup_file (p : string) (fs : SimFS) : option string :=
  (λ r, r.2.2) <$> list_find (λ f, f.1 = p) (sim_files fs).

Definition remove_file (p : string) (files : list (string * string))
  : list (string * string) :=
  filter (λ f, f.1 ≠ p) files.

Definition busy_for (p : string) (fs : SimFS) : Z :=
  default 0 ((λ r, r.2.2) <$> list_find (λ b, b.1 = p) (sim_busy fs)).

Definition denied (p : string) (fs : SimFS) : bool :=
  bool_decide (p ∈ sim_denied fs).

Definition ENOENT (p : string) : JsError :=
  mkError (Some "ENOENT") ("ENOENT: no such file or directory, '" +:+ p +:+ "'").
Definition EACCES (p : string) : JsError :=
  mkError (Some "EACCES") ("EACCES: permission denied, '" +:+ p +:+ "'").
Definition EBUSY (p : string) : JsError :=
  mkError (Some "EBUSY") ("EBUSY: resource busy or locked, '" +:+ p +:+ "'").
Definition dest_exists : JsError :=
  mkError None "dest already exists.".
Definition same_path : JsError :=
  mkError None "Source and destination must not be the same.".

(** The file is taken away. *)
Definition sim_remove (p : string) (fs : SimFS) : SimFS :=
  {| sim_files := remove_file p (sim_files fs);
     sim_dirs := sim_dirs fs;
     sim_busy := sim_busy fs;
     sim_denied := sim_denied fs;
     sim_incoming := sim_incoming fs |}.

(** The file gets its new path, if it is accessible and no other process
    holds it. *)
Definition sim_rename (src dest data : string) (fs : SimFS)
  : option JsError * SimFS :=
  if denied src fs then (Some (EACCES src), fs)
  else if bool_decide (0 < busy_for src fs) then (Some (EBUSY src), fs)
  else (None,
        {| sim_files := remove_file src (sim_files fs) ++ [(dest, data)];
           sim_dirs := sim_dirs fs;
           sim_busy := sim_busy fs;
           sim_denied := sim_denied fs;
           sim_incoming := sim_incoming fs |}).

(** fs-extra's [move]: the source must exist and differ from the
    destination.  With [overwrite] the destination is removed and then the
    source renamed, so that a rename that fails leaves the destination
    removed; without it an existing destination is refused. *)
Definition sim_move (src dest : string) (opts : MoveOptions) (fs : SimFS)
  : option JsError * SimFS :=
  match lookup_file src fs with
  | None => (Some (ENOENT src), fs)
  | Some data =>
    if bool_decide (src = dest) then (Some same_path, fs)
    else if overwrite opts then
      if denied dest fs then (Some (EACCES dest), fs)
      else sim_rename src dest data (sim_remove dest fs)
    else if bool_decide (is_Some (lookup_file dest fs)) then (Some dest_exists, fs)
    else sim_rename src dest data fs
  end.

Definition sim_pathExists (p : string) (fs : SimFS) : bool :=
  bool_decide (is_Some (lookup_file p fs)) || bool_decide (p ∈ sim_dirs fs).

Definition sim_writeFile (file data : string) (fs : SimFS) : option JsError * SimFS :=
  if denied file fs then (Some (EACCES file), fs)
  else (None,
        {| sim_files := remove_file file (sim_files fs) ++ [(file, data)];
           sim_dirs := sim_dirs fs;
           sim_busy := sim_busy fs;
           sim_denied := sim_denied fs;
           sim_incoming := sim_incoming fs |}).

Definition sim_ensureDir (dir : string) (fs : SimFS) : option JsError * SimFS :=
  if denied dir fs then (Some (EACCES dir), fs)
  else if bool_decide (dir ∈ sim_dirs fs) then (None, fs)
  else (None,
        {| sim_files := sim_files fs;
           sim_dirs := sim_dirs fs ++ [dir];
           sim_busy := sim_busy fs;
           sim_denied := sim_denied fs;
           sim_incoming := sim_incoming fs |}).

(** As time passes other processes close their files and create the files
    that are due. *)
Definition sim_elapse (ms : Z) (fs : SimFS) : SimFS :=
  let later := (λ i, (i.1 - ms, i.2)) <$> sim_incoming fs in
  {| sim_files := sim_files fs ++ (snd <$> filter (λ i, i.1 ≤ 0) later);
     sim_dirs := sim_dirs fs;
     sim_busy := filter (λ b, 0 < b.2) ((λ b, (b.1, b.2 - ms)) <$> sim_busy fs);
     sim_denied := sim_denied fs;
     sim_incoming := filter (λ i, 0 < i.1) later |}.

(** *** POSIX paths *)

Definition slash : Ascii.ascii := Ascii.ascii_of_nat 47.

(** The pieces of a string between the occurrences of a character. *)
Fixpoint split_char (c : Ascii.ascii) (s : string) : list string :=
  match s with
  | EmptyString => [EmptyString]
  | String a rest =>
    if Ascii.eqb a c then EmptyString :: split_char c rest
    else match split_char c rest with
         | seg :: segs => String a seg :: segs
         | [] => [String a EmptyString]
         end
  end.

Abbreviation split_slash := (split_char slash).

Definition join_slash (segs : list string) : string := String.concat "/" segs.

(** A path segment: a string without a slash. *)
Definition segment (s : string) : Prop := split_slash s = [s].

(** A segment that is not empty. *)
Definition named (s : string) : Prop := segment s ∧ s ≠ "".

(** A file name: a segment other than the empty one, [.] and [..]. *)
Definition file_name (n : string) : Prop :=
  segment n ∧ n ≠ "" ∧ n ≠ "." ∧ n ≠ "..".

(** [path.basename]: the last segment that is not empty. *)
Definition posix_basename (p : string) : string :=
  default "" (last (filter (λ seg, seg ≠ "") (split_slash p))).

Definition normalize_step (above : bool) (res : list string) (seg : string)
  : list string :=
  if bool_decide (seg = "") || bool_decide (seg = ".") then res
  else if bool_decide (seg = "..") then
    match last res with
    | Some l => if bool_decide (l = "..") then res ++ [seg] else removelast res
    | None => if above then [seg] else []
    end
  else res ++ [seg].

(** [path.normalize] *)
Definition posix_normalize (p : string) : string :=
  if bool_decide (p = "") then "."
  else
    let absolute := String.prefix "/" p in
    let trailing := bool_decide (last (split_slash p) = Some "") in
    let body := join_slash (foldl (normalize_step (negb absolute)) [] (split_slash p)) in
    if bool_decide (body = "") then
      if absolute then "/" else if trailing then "./" else "."
    else
      (if absolute then "/" else "") +:+ body +:+ (if trailing then "/" else "").

(** [path.join] of two segments *)
Definition posix_join (a b : string) : string :=
  if bool_decide (a = "") then
    if bool_decide (b = "") then "." else posix_normalize b
  else if bool_decide (b = "") then posix_normalize a
  else posix_normalize (a +:+ "/" +:+ b).

(** The files below a directory; a directory that does not exist shows
    none. *)
Definition sim_scan (dir : string) (fs : SimFS) : Scan :=
  if denied dir fs then ScanError (EACCES dir)
  else if bool_decide (dir ∈ sim_dirs fs) then
    ScanFiles (filter (λ p, String.prefix (dir +:+ "/") p = true) (fst <$> sim_files fs))
  else ScanFiles [].

(** *** dotenv *)

Definition newline_char : Ascii.ascii := Ascii.ascii_of_nat 10.
Definition equals_char : Ascii.ascii := Ascii.ascii_of_nat 61.

Definition parse_line (line : string) : option (string * string) :=
  match split_char equals_char line with
  | key :: value :: more =>
    if bool_decide (key = "") then None
    else Some (key, String.concat "=" (value :: more))
  | _ => None
  end.

(** The variables of the file are added to the ones not already set. *)
Definition sim_dotenv (file : string) (fs : SimFS) (e : gmap string string)
  : gmap string string :=
  match lookup_file file fs with
  | None => e
  | Some text =>
    foldl (λ acc kv, if bool_decide (is_Some (acc !! kv.1)) then acc
                     else <[kv.1 := kv.2]> acc)
          e (omap parse_line (split_char newline_char text))
  end.

#[export] Instance sim_platform : Platform := {|
  FS := SimFS;
  process_cwd := "/srv/app";
  path_join := posix_join;
  path_basename := posix_basename;
  os_move := sim_move;
  os_pathExists := sim_pathExists;
  os_writeFile := sim_writeFile;
  os_ensureDir := sim_ensureDir;
  os_dotenv := sim_dotenv;
  os_watch_throws := λ _ _ _, None;
  os_scan := sim_scan;
  elapse := sim_elapse;
|}.

(** The process at its start: nothing in the environment, nothing done. *)
Definition start (fs : SimFS) : World :=
  {| fsys := fs; env := ∅; watcher := None; trace := [] |}.

(** The process started with some variables in its environment. *)
Definition start_with (e : gmap string string) (fs : SimFS) : World :=
  {| fsys := fs; env := e; watcher := None; trace := [] |}.

(** The same machine with a chokidar that refuses a directory it does not
    find. *)
Definition strict_platform : Platform := {|
  FS := SimFS;
  process_cwd := "/srv/app";
  path_join := posix_join;
  path_basename := posix_basename;
  os_move := sim_move;
  os_pathExists := sim_pathExists;
  os_writeFile := sim_writeFile;
  os_ensureDir := sim_ensureDir;
  os_dotenv := sim_dotenv;
  os_watch_throws := λ dir _ fs,
    if sim_pathExists dir fs then None else Some (ENOENT dir);
  os_scan := sim_scan;
  elapse := sim_elapse;
|}.

Definition strict_start (fs : SimFS) : @World strict_platform :=
  @Build_World strict_platform fs ∅ None [].

(** *** Scenarios *)

Definition report : string := "/data/in/report.csv".
Definition report_dest : string := "/data/out/report.csv".

(** A file waiting in the source directory; the destination has an older
    file of the same name. *)
Definition fs_ready : SimFS :=
  {| sim_files := [(report, "new"); (report_dest, "old")];
     sim_dirs := ["/data/in"; "/data/out"];
     sim_busy := []; sim_denied := []; sim_incoming := [] |}.

(** The file is still being written, for 1500 ms or for a minute. *)
Definition fs_busy (ms : Z) : SimFS :=
  {| sim_files := [(report, "new"); (report_dest, "old")];
     sim_dirs := ["/data/in"; "/data/out"];
     sim_busy := [(report, ms)]; sim_denied := []; sim_incoming := [] |}.

(** The service may not touch the file. *)
Definition fs_forbidden : SimFS :=
  {| sim_files := [(report, "new")];
     sim_dirs := ["/data/in"; "/data/out"];
     sim_busy := []; sim_denied := [report]; sim_incoming := [] |}.

(** A machine with the application directory and nothing else: the [.env]
    file is yet to be written, and [./src] and [./dest] do not exist. *)
Definition fs_bare : SimFS :=
  {| sim_files := []; sim_dirs := ["/srv/app"];
     sim_busy := []; sim_denied := []; sim_incoming := [] |}.

(** The same, with a [./src] that the service may not read. *)
Definition fs_unreadable : SimFS :=
  {| sim_files := []; sim_dirs := ["/srv/app"; "./src"];
     sim_busy := []; sim_denied := ["./src"]; sim_incoming := [] |}.

(** A machine set up by its user: the [.env] file names the two
    directories. *)
Definition fs_configured : SimFS :=
  {| sim_files := [("/srv/app/.env",
                    "SRC=/data/in" +:+ newline +:+ "DEST=/data/out" +:+ newline +:+
                    "FILE_NAME=report.csv" +:+ newline)];
     sim_dirs := ["/srv/app"; "/data/in"; "/data/out"];
     sim_busy := []; sim_denied := []; sim_incoming := [] |}.

(** A machine where the service may not create its log directory, or may
    not write its [.env] file. *)
Definition fs_no_logs : SimFS :=
  {| sim_files := []; sim_dirs := ["/srv/app"];
     sim_busy := []; sim_denied := ["/srv/app/logs"]; sim_incoming := [] |}.
Definition fs_no_env : SimFS :=
  {| sim_files := []; sim_dirs := ["/srv/app"];
     sim_busy := []; sim_denied := ["/srv/app/.env"]; sim_incoming := [] |}.

(** A source directory where a file appears after 500 ms that the service
    may not touch. *)
Definition fs_stuck : SimFS :=
  {| sim_files := []; sim_dirs := ["/data/in"; "/data/out"];
     sim_busy := []; sim_denied := ["/data/in/locked.csv"];
     sim_incoming := [(500, ("/data/in/locked.csv", "kept"))] |}.

(** A source directory with one old file, where another process creates a
    file in a subdirectory after 2500 ms. *)
Definition fs_arrival : SimFS :=
  {| sim_files := [("/data/in/old.csv", "old")];
     sim_dirs := ["/data/in"; "/data/out"];
     sim_busy := []; sim_denied := [];
     sim_incoming := [(2500, ("/data/in/sub/fresh.csv", "fresh"))] |}.

End Sim.

(** * Facts *)

Section Facts.

Context `{P : Platform}.

Lemma produced_emit (es : list Effect) (fs : FS) (w : World) :
  produced w (emit_effects es (set_fsys fs w)) = es.
Proof. unfold produced; simpl. by rewrite drop_app_length. Qed.

(** The body of [moveFile] as the source has it, with the self-call. *)
Lemma moveFile_unfold (srcPath destPath : string) (retries : Z) (w : World) :
  moveFile srcPath destPath retries w =
  try_catch
    (logger_info ("Attempting to move file from " +:+ srcPath +:+ " to " +:+ destPath) ;;
     fs_move srcPath destPath {| overwrite := true |} ;;
     logger_info ("File moved successfully from " +:+ srcPath +:+ " to " +:+ destPath))
    (λ error,
       if bool_decide (retries > 0) && is_busy error then
         logger_warn ("File is in use. Retrying... (" +:+ pretty retries +:+ " retries left)") ;;
         sleep 1000 ;;
         moveFile srcPath destPath (retries - 1)
       else
         logger_error ("Error moving file: " +:+ err_message error)) w.
Proof.
  unfold moveFile.
  destruct (Z.to_nat retries) as [|depth] eqn:Hdepth; simpl; unfold try_catch.
  - match goal with |- match ?b with _ => _ end = _ =>
      destruct b as [[| error |] w'] end; try done.
    rewrite bool_decide_eq_false_2 by lia. done.
  - match goal with |- match ?b with _ => _ end = _ =>
      destruct b as [[| error |] w'] end; try done.
    replace (Z.to_nat (retries - 1)) with depth by lia. done.
Qed.

(** Cases on a membership in a list that is written out. *)
Ltac in_list H :=
  rewrite ?elem_of_cons, ?elem_of_nil in H;
  repeat (destruct H as [H|H]); try discriminate H; try done.

Ltac run_code :=
  unfold try_catch, mbind, M_bind, mret, M_ret, logger_info, logger_warn,
    logger_error, console_log, console_error, perform, fs_move, sleep, settle,
    process_exit; simpl.

Lemma moveFile_moved (srcPath destPath : string) (retries : Z) (w : World) fs' :
  os_move srcPath destPath move_options (fsys w) = (None, fs') →
  moveFile srcPath destPath retries w =
  (Resolved tt,
   emit_effects [Log LInfo (msg_attempt srcPath destPath);
                 FsMove srcPath destPath move_options None;
                 Log LInfo (msg_moved srcPath destPath)] (set_fsys fs' w)).
Proof.
  intros Hmove. rewrite moveFile_unfold. run_code.
  fold move_options. rewrite Hmove. simpl.
  unfold emit_effects, set_fsys; simpl. by rewrite <- !app_assoc.
Qed.

Lemma moveFile_retry (srcPath destPath : string) (retries : Z) (w : World)
    error fs1 :
  os_move srcPath destPath move_options (fsys w) = (Some error, fs1) →
  retries > 0 →
  is_busy error = true →
  moveFile srcPath destPath retries w =
  moveFile srcPath destPath (retries - 1)
    (emit_effects [Log LInfo (msg_attempt srcPath destPath);
                   FsMove srcPath destPath move_options (Some error);
                   Log LWarn (msg_retry retries);
                   Delay 1000] (set_fsys (elapse 1000 fs1) w)).
Proof.
  intros Hmove Hleft Hbusy. rewrite moveFile_unfold. run_code.
  fold move_options. rewrite Hmove. simpl.
  rewrite Hbusy, bool_decide_eq_true_2 by done. simpl.
  f_equal. unfold emit_effects, set_fsys; simpl. by rewrite <- !app_assoc.
Qed.

Lemma moveFile_failed (srcPath destPath : string) (retries : Z) (w : World)
    error fs1 :
  os_move srcPath destPath move_options (fsys w) = (Some error, fs1) →
  bool_decide (retries > 0) && is_busy error = false →
  moveFile srcPath destPath retries w =
  (Resolved tt,
   emit_effects [Log LInfo (msg_attempt srcPath destPath);
                 FsMove srcPath destPath move_options (Some error);
                 Log LError (msg_failed error)] (set_fsys fs1 w)).
Proof.
  intros Hmove Hstop. rewrite moveFile_unfold. run_code.
  fold move_options. rewrite Hmove. simpl. rewrite Hstop.
  unfold emit_effects, set_fsys; simpl. by rewrite <- !app_assoc.
Qed.

(** Every call of [moveFile] is a run of the state machine, and resolves. *)
Lemma moveFile_run (srcPath destPath : string) (retries : Z) (w : World) :
  ∃ es fs',
    mover_run srcPath destPath retries (fsys w) es fs' ∧
    moveFile srcPath destPath retries w =
    (Resolved tt, emit_effects es (set_fsys fs' w)).
Proof.
  remember (Z.to_nat retries) as depth eqn:Hdepth.
  revert retries w Hdepth.
  induction depth as [|depth IH]; intros retries w Hdepth;
    destruct (os_move srcPath destPath move_options (fsys w))
      as [[error|] fs1] eqn:Hmove;
    try (eexists _, _; split;
         [ by apply run_moved | by apply moveFile_moved ]).
  - eexists _, _; split.
    + apply run_failed; [done|]. rewrite bool_decide_eq_false_2 by lia. done.
    + apply moveFile_failed; [done|]. rewrite bool_decide_eq_false_2 by lia. done.
  - destruct (bool_decide (retries > 0) && is_busy error) eqn:Hagain.
    + apply andb_true_iff in Hagain as [Hleft%bool_decide_eq_true_1 Hbusy].
      destruct (IH (retries - 1)
        (emit_effects [Log LInfo (msg_attempt srcPath destPath);
                       FsMove srcPath destPath move_options (Some error);
                       Log LWarn (msg_retry retries);
                       Delay 1000] (set_fsys (elapse 1000 fs1) w)))
        as (es & fs' & Hrun & Heq); [lia|].
      eexists _, fs'; split.
      * eapply run_retry; eauto.
      * rewrite (moveFile_retry _ _ _ _ _ _ Hmove Hleft Hbusy), Heq.
        f_equal. unfold emit_effects, set_fsys; simpl. by rewrite <- !app_assoc.
    + eexists _, _; split; [ by apply run_failed | by apply moveFile_failed ].
Qed.

Lemma count_app (p : Effect → bool) (es es' : list Effect) :
  count p (es ++ es') = (count p es + count p es')%nat.
Proof. unfold count. by rewrite List.filter_app, length_app. Qed.

Lemma run_effects (srcPath destPath : string) retries fs es fs' :
  mover_run srcPath destPath retries fs es fs' →
  Forall (mover_effect srcPath destPath) es.
Proof.
  induction 1; repeat (apply Forall_cons; split; [by simpl|]); by try apply Forall_nil.
Qed.

(** The attempts of a run: one more than its warnings and waits; at most one
    takes effect, and the run ends on the line that tells which. *)
Lemma run_counts (srcPath destPath : string) retries fs es fs' :
  mover_run srcPath destPath retries fs es fs' →
  count is_attempt es = S (count (is_log LWarn) es) ∧
  count is_delay es = count (is_log LWarn) es ∧
  Z.of_nat (count (is_log LWarn) es) ≤ Z.max 0 retries ∧
  ((last es = Some (Log LInfo (msg_moved srcPath destPath)) ∧
    count is_effective_move es = 1%nat ∧ count (is_log LError) es = 0%nat) ∨
   (∃ error, last es = Some (Log LError (msg_failed error)) ∧
    FsMove srcPath destPath move_options (Some error) ∈ es ∧
    count is_effective_move es = 0%nat ∧ count (is_log LError) es = 1%nat)).
Proof.
  induction 1 as [retries fs fs' Hmove
                 |retries fs error fs1 es fs' Hmove Hleft Hbusy Hrun IH
                 |retries fs error fs1 Hmove Hstop].
  - unfold count; simpl. split_and!; [done|done|lia|]. by left.
  - destruct IH as (Hatt & Hwait & Hwarn & Hend).
    rewrite !count_app. split_and!.
    + rewrite Hatt. done.
    + rewrite Hwait. done.
    + change (count (is_log LWarn) [_; _; _; _]) with 1%nat. lia.
    + assert (es ≠ []) as Hne by (inversion Hrun; done).
      rewrite last_app. destruct (last es) eqn:Hlast;
        [|by apply last_None in Hlast].
      destruct Hend as [(Hl & Heff & Herr)|(error' & Hl & Hin & Heff & Herr)].
      * left. rewrite Heff, Herr. done.
      * right. exists error'. rewrite Heff, Herr.
        repeat split; try done. apply elem_of_app. by right.
  - unfold count; simpl. split_and!; [done|done|lia|]. right. exists error.
    split_and!; try done. rewrite !elem_of_cons. auto.
Qed.

Lemma run_first_attempt (srcPath destPath : string) retries fs es fs' :
  mover_run srcPath destPath retries fs es fs' →
  ∃ rest, es = Log LInfo (msg_attempt srcPath destPath)
               :: FsMove srcPath destPath move_options
                    (os_move srcPath destPath move_options fs).1 :: rest.
Proof. destruct 1 as [? ? ? ->|? ? ? ? ? ? ->|? ? ? ? ->]; by eexists. Qed.

(** The result of [moveFile] in terms of its run. *)
Lemma moveFile_produced (srcPath destPath : string) (retries : Z) (w : World) :
  ∃ fs',
    mover_run srcPath destPath retries (fsys w)
      (produced w (moveFile srcPath destPath retries w).2) fs' ∧
    moveFile srcPath destPath retries w =
    (Resolved tt,
     emit_effects (produced w (moveFile srcPath destPath retries w).2)
       (set_fsys fs' w)).
Proof.
  destruct (moveFile_run srcPath destPath retries w) as (es & fs' & Hrun & Heq).
  exists fs'. rewrite Heq. simpl. by rewrite produced_emit.
Qed.

(** C1. When an attempt of [moveFile] fails with [EBUSY] and [retries > 0],
    the mover logs a warning, waits 1000 ms, and goes on as [moveFile] with
    [retries - 1], which starts with a new attempt; every wait of a run is
    1000 ms long.  When the attempt fails and [retries > 0] with [EBUSY] does
    not hold, the run ends there with an error line: no other kind of error
    leads to a retry. *)
Theorem moveFile_retries_on_busy (srcPath destPath : string) (retries : Z)
    (w : World) (error : JsError) (fs1 : FS) :
  os_move srcPath destPath move_options (fsys w) = (Some error, fs1) →
  let es := produced w (moveFile srcPath destPath retries w).2 in
  (retries > 0 ∧ err_code error = Some "EBUSY" →
   moveFile srcPath destPath retries w =
   moveFile srcPath destPath (retries - 1)
     (emit_effects [Log LInfo (msg_attempt srcPath destPath);
                    FsMove srcPath destPath move_options (Some error);
                    Log LWarn (msg_retry retries);
                    Delay 1000] (set_fsys (elapse 1000 fs1) w)) ∧
   ∃ rest : list Effect,
     es = [Log LInfo (msg_attempt srcPath destPath);
           FsMove srcPath destPath move_options (Some error);
           Log LWarn (msg_retry retries);
           Delay 1000;
           Log LInfo (msg_attempt srcPath destPath);
           FsMove srcPath destPath move_options
             (os_move srcPath destPath move_options (elapse 1000 fs1)).1]
          ++ rest) ∧
  (¬ (retries > 0 ∧ err_code error = Some "EBUSY") →
   es = [Log LInfo (msg_attempt srcPath destPath);
         FsMove srcPath destPath move_options (Some error);
         Log LError (msg_failed error)]) ∧
  (∀ ms, Delay ms ∈ es → ms = 1000).
Proof.
  intros Hmove es. split_and!.
  - intros [Hleft Hbusy].
    assert (is_busy error = true) as Hb by by apply bool_decide_eq_true_2.
    pose proof (moveFile_retry _ _ _ _ _ _ Hmove Hleft Hb) as Hstep.
    split; [done|]. subst es. rewrite Hstep.
    match goal with |- context [moveFile _ _ _ ?w1] => set (w1' := w1) end.
    destruct (moveFile_run srcPath destPath (retries - 1) w1')
      as (es' & fs' & Hrun & ->).
    destruct (run_first_attempt _ _ _ _ _ _ Hrun) as [rest ->].
    exists rest. subst w1'. unfold produced; simpl.
    by rewrite <- app_assoc, drop_app_length.
  - intros Hno. subst es. rewrite (moveFile_failed _ _ _ _ _ _ Hmove).
    + simpl. by rewrite produced_emit.
    + apply andb_false_iff. unfold is_busy.
      destruct (decide (retries > 0)); [right|left];
        apply bool_decide_eq_false_2; naive_solver.
  - intros ms Hin. subst es.
    destruct (moveFile_produced srcPath destPath retries w) as (fs' & Hrun & _).
    apply run_effects in Hrun. rewrite Forall_forall in Hrun.
    by apply Hrun in Hin.
Qed.

(** C2. When the first attempt of [moveFile] fails with an error whose code
    is not [EBUSY], the call resolves after that one attempt and one error
    line: no warning, no wait, no second attempt, and nothing thrown. *)
Theorem moveFile_abandons_on_other_error (srcPath destPath : string)
    (retries : Z) (w : World) (error : JsError) (fs1 : FS) :
  os_move srcPath destPath move_options (fsys w) = (Some error, fs1) →
  err_code error ≠ Some "EBUSY" →
  moveFile srcPath destPath retries w =
  (Resolved tt,
   emit_effects [Log LInfo (msg_attempt srcPath destPath);
                 FsMove srcPath destPath move_options (Some error);
                 Log LError (msg_failed error)] (set_fsys fs1 w)) ∧
  let es := produced w (moveFile srcPath destPath retries w).2 in
  count (is_log LError) es = 1%nat ∧
  count is_attempt es = 1%nat ∧
  count (is_log LWarn) es = 0%nat ∧
  count is_delay es = 0%nat.
Proof.
  intros Hmove Hother.
  assert (bool_decide (retries > 0) && is_busy error = false) as Hstop.
  { apply andb_false_iff. right. by apply bool_decide_eq_false_2. }
  rewrite (moveFile_failed _ _ _ _ _ _ Hmove Hstop). split; [done|].
  simpl. by rewrite produced_emit.
Qed.

(** A run whose attempts all fail busy uses up its retries. *)
Lemma run_always_busy (srcPath destPath : string) retries fs es fs' :
  mover_run srcPath destPath retries fs es fs' →
  0 ≤ retries →
  always_busy (Z.to_nat retries) srcPath destPath fs →
  count is_attempt es = S (Z.to_nat retries) ∧
  count (is_log LWarn) es = Z.to_nat retries ∧
  ∃ error, last es = Some (Log LError (msg_failed error)) ∧
           err_code error = Some "EBUSY".
Proof.
  induction 1 as [retries fs fs' Hmove
                 |retries fs error fs1 es fs' Hmove Hleft Hbusy Hrun IH
                 |retries fs error fs1 Hmove Hstop]; intros Hpos Halways.
  - destruct (Z.to_nat retries); destruct Halways as (e & f & He & _); congruence.
  - replace (Z.to_nat retries) with (S (Z.to_nat (retries - 1))) in * by lia.
    destruct Halways as (e & f & He & _ & Hnext).
    assert (f = fs1) as -> by congruence.
    destruct IH as (Hatt & Hwarn & error' & Hlast & Hcode); [lia|done|].
    rewrite !count_app, Hatt, Hwarn. split_and!; [done|done|].
    exists error'. split; [|done].
    rewrite last_app, Hlast. done.
  - assert (∃ e f, os_move srcPath destPath move_options fs = (Some e, f) ∧
                   err_code e = Some "EBUSY") as (e & f & He & Hcode).
    { destruct (Z.to_nat retries); destruct Halways as (e & f & He & Hc & _); eauto. }
    assert (e = error) as -> by congruence.
    apply andb_false_iff in Hstop as [Hstop%bool_decide_eq_false_1|Hstop].
    + replace retries with 0 by lia. unfold count; simpl.
      split_and!; [done|done|]. by exists error.
    + unfold is_busy in Hstop. by apply bool_decide_eq_false_1 in Hstop.
Qed.

(** A run that moves nothing leaves the source in place, if failing and
    waiting do. *)
Lemma run_keeps_file (srcPath destPath : string) retries fs es fs' :
  stays_in_place srcPath destPath →
  mover_run srcPath destPath retries fs es fs' →
  count is_effective_move es = 0%nat →
  os_pathExists srcPath fs = true →
  os_pathExists srcPath fs' = true.
Proof.
  intros [Hfail Hwait].
  induction 1 as [retries fs fs' Hmove
                 |retries fs error fs1 es fs' Hmove Hleft Hbusy Hrun IH
                 |retries fs error fs1 Hmove Hstop]; intros Hnone Hthere.
  - done.
  - rewrite count_app in Hnone. apply IH; [lia|]. eauto.
  - eauto.
Qed.

(** C3. With the default of three retries, when every attempt fails with
    [EBUSY] the mover makes four attempts, logs three warnings and then one
    error line, which ends the run; the promise resolves and no attempt has
    taken effect.  The source file is still there, provided a failed move of
    it onto the destination and a second of waiting leave it in place. *)
Theorem moveFile_gives_up_when_always_busy (srcPath destPath : string)
    (w : World) :
  always_busy (Z.to_nat default_retries) srcPath destPath (fsys w) →
  let c := (moveFile srcPath destPath default_retries w).1 in
  let w' := (moveFile srcPath destPath default_retries w).2 in
  let es := produced w w' in
  c = Resolved tt ∧
  count is_attempt es = 4%nat ∧
  count (is_log LWarn) es = 3%nat ∧
  count (is_log LError) es = 1%nat ∧
  count is_effective_move es = 0%nat ∧
  (∃ error, last es = Some (Log LError (msg_failed error)) ∧
            err_code error = Some "EBUSY") ∧
  (stays_in_place srcPath destPath →
   os_pathExists srcPath (fsys w) = true →
   os_pathExists srcPath (fsys w') = true).
Proof.
  intros Hbusy c w' es.
  destruct (moveFile_produced srcPath destPath default_retries w)
    as (fs' & Hrun & Heq).
  fold w' es in Hrun, Heq.
  destruct (run_always_busy _ _ _ _ _ _ Hrun) as (Hatt & Hwarn & error & Hlast & Hcode);
    [done|done|].
  destruct (run_counts _ _ _ _ _ _ Hrun) as (_ & _ & _ & Hend).
  destruct Hend as [(Hl & _)|(error' & Hl & _ & Heff & Herr)]; [congruence|].
  assert (w' = emit_effects es (set_fsys fs' w)) as Hw'.
  { subst w'. by rewrite Heq. }
  split_and!; try done.
  - subst c. by rewrite Heq.
  - by exists error.
  - intros Hstay Hthere. rewrite Hw'. simpl. eapply run_keeps_file; eauto.
Qed.

(** The outcomes a run records are outcomes of [fs.move]. *)
Lemma run_outcomes (srcPath destPath : string) retries fs es fs' :
  mover_run srcPath destPath retries fs es fs' →
  ∀ src dest opts out, FsMove src dest opts out ∈ es →
    ∃ fs0 fs1, os_move srcPath destPath move_options fs0 = (out, fs1).
Proof.
  induction 1 as [retries fs fs' Hmove
                 |retries fs error fs1 es fs' Hmove Hleft Hbusy Hrun IH
                 |retries fs error fs1 Hmove Hstop]; intros src dest opts out Hin.
  - in_list Hin. injection Hin as -> -> -> ->. eauto.
  - apply elem_of_app in Hin as [Hin|Hin]; [|eauto].
    in_list Hin. injection Hin as -> -> -> ->. eauto.
  - in_list Hin. injection Hin as -> -> -> ->. eauto.
Qed.

(** An error line of a run tells the error of one of its attempts. *)
Lemma run_error_lines (srcPath destPath : string) retries fs es fs' :
  mover_run srcPath destPath retries fs es fs' →
  ∀ message, Log LError message ∈ es →
    ∃ error, message = msg_failed error ∧
             FsMove srcPath destPath move_options (Some error) ∈ es.
Proof.
  induction 1 as [retries fs fs' Hmove
                 |retries fs error fs1 es fs' Hmove Hleft Hbusy Hrun IH
                 |retries fs error fs1 Hmove Hstop]; intros message Hin.
  - in_list Hin.
  - apply elem_of_app in Hin as [Hin|Hin].
    + in_list Hin.
    + destruct (IH _ Hin) as (error' & -> & Hin').
      exists error'. split; [done|]. apply elem_of_app. by right.
  - in_list Hin. injection Hin as ->.
    exists error. split; [done|].
    rewrite !elem_of_cons. auto.
Qed.

Lemma append_inj_l (s a b : string) : s +:+ a = s +:+ b → a = b.
Proof. induction s as [|c s IH]; simpl; [done|]. intros [= H]. auto. Qed.

(** The file system that a run with an effective attempt leaves is the one
    that this attempt has left. *)
Lemma run_moved_leaves (srcPath destPath : string) retries fs es fs' :
  mover_run srcPath destPath retries fs es fs' →
  last es = Some (Log LInfo (msg_moved srcPath destPath)) →
  ∃ fs0, os_move srcPath destPath move_options fs0 = (None, fs').
Proof.
  induction 1 as [retries fs fs' Hmove
                 |retries fs error fs1 es fs' Hmove Hleft Hbusy Hrun IH
                 |retries fs error fs1 Hmove Hstop]; intros Hlast.
  - by exists fs.
  - apply IH. rewrite last_app in Hlast.
    destruct (last es) eqn:Hes; [done|].
    apply last_None in Hes. subst es. inversion Hrun.
  - done.
Qed.

(** C4. [moveFile] does not look whether the destination exists: also when
    it does, the first thing after the info line is a call of [fs.move] on
    the two paths with [overwrite] set, and so is every later attempt.  If
    that call takes effect the run is over, with the file system as this one
    call has left it: the destination replaced by the source.  fs-extra raises
    its destination-exists error only to a caller that has not set
    [overwrite]; hence no attempt of [moveFile] ends in it and no such failure
    is logged.  At most one attempt of a run takes effect; when the run ends
    with the success line exactly one has, and the file system is the one
    this attempt has left. *)
Theorem moveFile_overwrites_destination (srcPath destPath : string)
    (retries : Z) (w : World) :
  os_pathExists destPath (fsys w) = true →
  (∀ opts fs error fs1,
     os_move srcPath destPath opts fs = (Some error, fs1) →
     is_dest_exists error → overwrite opts = false) →
  let w' := (moveFile srcPath destPath retries w).2 in
  let es := produced w w' in
  (∃ rest,
     es = Log LInfo (msg_attempt srcPath destPath)
          :: FsMove srcPath destPath {| overwrite := true |}
               (os_move srcPath destPath {| overwrite := true |} (fsys w)).1
          :: rest) ∧
  (∀ fs',
     os_move srcPath destPath {| overwrite := true |} (fsys w) = (None, fs') →
     moveFile srcPath destPath retries w =
     (Resolved tt,
      emit_effects [Log LInfo (msg_attempt srcPath destPath);
                    FsMove srcPath destPath {| overwrite := true |} None;
                    Log LInfo (msg_moved srcPath destPath)] (set_fsys fs' w))) ∧
  (∀ src dest opts out, FsMove src dest opts out ∈ es →
     src = srcPath ∧ dest = destPath ∧ overwrite opts = true ∧
     ∀ error, out = Some error → ¬ is_dest_exists error) ∧
  (∀ error, Log LError (msg_failed error) ∈ es → ¬ is_dest_exists error) ∧
  (count is_effective_move es ≤ 1)%nat ∧
  (last es = Some (Log LInfo (msg_moved srcPath destPath)) →
   count is_effective_move es = 1%nat ∧
   ∃ fs0, os_move srcPath destPath {| overwrite := true |} fs0
          = (None, fsys w')).
Proof.
  intros _ Hcontract w' es.
  destruct (moveFile_produced srcPath destPath retries w) as (fs' & Hrun & Heq).
  fold w' es in Hrun, Heq.
  pose proof (run_effects _ _ _ _ _ _ Hrun) as Heff.
  rewrite Forall_forall in Heff.
  assert (∀ src dest opts out, FsMove src dest opts out ∈ es →
            ∀ error, out = Some error → ¬ is_dest_exists error) as Hout.
  { intros src dest opts out Hin error -> Hexists.
    destruct (run_outcomes _ _ _ _ _ _ Hrun _ _ _ _ Hin) as (fs0 & fs1 & Hmove).
    by pose proof (Hcontract _ _ _ _ Hmove Hexists). }
  split_and!.
  - apply (run_first_attempt _ _ _ _ _ _ Hrun).
  - intros fs1 Hmove. by apply moveFile_moved.
  - intros src dest opts out Hin. pose proof (Heff _ Hin) as (-> & -> & ->).
    split_and!; eauto.
  - intros error Hin Hexists.
    destruct (run_error_lines _ _ _ _ _ _ Hrun _ Hin) as (error' & Hmsg & Hin').
    apply append_inj_l in Hmsg.
    eapply Hout; eauto. unfold is_dest_exists in *. congruence.
  - destruct (run_counts _ _ _ _ _ _ Hrun) as (_ & _ & _ & Hend).
    destruct Hend as [(_ & -> & _)|(? & _ & _ & -> & _)]; lia.
  - intros Hlast.
    destruct (run_counts _ _ _ _ _ _ Hrun) as (_ & _ & _ & Hend).
    destruct Hend as [(_ & Hone & _)|(? & Hl & _)]; [|congruence].
    split; [done|].
    assert (fsys w' = fs') as -> by (unfold w'; by rewrite Heq).
    by apply (run_moved_leaves _ _ _ _ _ _ Hrun).
Qed.

(** C7, as the code has it.  The promise of [moveFile] resolves with no
    value whatever happened; the outcome is told by the last line of the run
    alone: the success line after the one attempt that took effect, or the
    error line with the message of the attempt that failed for good. *)
Theorem moveFile_reports_by_log_only (srcPath destPath : string) (retries : Z)
    (w : World) :
  let es := produced w (moveFile srcPath destPath retries w).2 in
  (moveFile srcPath destPath retries w).1 = Resolved tt ∧
  ((last es = Some (Log LInfo (msg_moved srcPath destPath)) ∧
    count is_effective_move es = 1%nat) ∨
   (∃ error, last es = Some (Log LError (msg_failed error)) ∧
             FsMove srcPath destPath move_options (Some error) ∈ es ∧
             count is_effective_move es = 0%nat)).
Proof.
  intros es.
  destruct (moveFile_produced srcPath destPath retries w) as (fs' & Hrun & Heq).
  fold es in Hrun. split; [by rewrite Heq|].
  destruct (run_counts _ _ _ _ _ _ Hrun) as (_ & _ & _ & Hend).
  destruct Hend as [(Hl & Heff & _)|(error & Hl & Hin & Heff & _)]; [by left|].
  right. by exists error.
Qed.

(** The [add] listener: its line, then a run of the mover on the detected
    path and the destination made from its base name. *)
Lemma onAdd_run (destDir filePath : string) (w : World) :
  ∃ es fs',
    mover_run filePath (path_join destDir (path_basename filePath))
      default_retries (fsys w) es fs' ∧
    onAdd destDir filePath w =
    (Resolved tt,
     emit_effects (Log LInfo (msg_detected filePath) :: es) (set_fsys fs' w)).
Proof.
  unfold onAdd, spawn. run_code.
  match goal with |- context [moveFile ?s ?d ?r ?w1] =>
    destruct (moveFile_run s d r w1) as (es & fs' & Hrun & ->) end.
  exists es, fs'. split; [done|].
  unfold emit_effects, set_fsys; simpl. by rewrite <- app_assoc.
Qed.

(** C9. The promise of [moveFile] resolves for every source, destination,
    number of retries and behaviour of the file system: whatever an attempt
    throws is caught.  So the [add] listener, which starts [moveFile] and
    awaits nothing, returns and leaves no rejection unhandled. *)
Theorem moveFile_never_rejects (srcPath destPath : string) (retries : Z)
    (w : World) :
  (moveFile srcPath destPath retries w).1 = Resolved tt ∧
  ∀ destDir filePath,
    (onAdd destDir filePath w).1 = Resolved tt ∧
    ∀ e, UnhandledRejection e ∉ produced w (onAdd destDir filePath w).2.
Proof.
  split.
  - destruct (moveFile_run srcPath destPath retries w) as (es & fs' & _ & ->).
    done.
  - intros destDir filePath.
    destruct (onAdd_run destDir filePath w) as (es & fs' & Hrun & ->).
    split; [done|]. intros e. simpl. rewrite produced_emit.
    apply run_effects in Hrun. rewrite Forall_forall in Hrun.
    intros Hin. apply elem_of_cons in Hin as [|Hin]; [done|].
    by apply Hrun in Hin.
Qed.

(** *** The watcher *)

(** What [startWatching] does: nothing if [chokidar.watch] throws, and
    otherwise the watcher with its two listeners and one line. *)
Lemma startWatching_result (srcDir destDir : string) (w : World) :
  startWatching srcDir destDir w =
  match os_watch_throws srcDir watch_options (fsys w) with
  | Some e => (Rejected e, w)
  | None =>
    (Resolved tt,
     emit_effects [Log LInfo ("Watching directory: " +:+ srcDir)]
       (set_watcher
          (Some (service_watcher srcDir destDir (initial_files srcDir (fsys w))))
          w))
  end.
Proof.
  unfold startWatching, chokidar_watch, watcher_on. run_code.
  fold watch_options.
  by destruct (os_watch_throws srcDir watch_options (fsys w)).
Qed.

Lemma startWatching_serving (srcDir destDir : string) (w w1 : World) :
  startWatching srcDir destDir w = (Resolved tt, w1) →
  serving srcDir destDir w1 ∧
  produced w w1 = [Log LInfo ("Watching directory: " +:+ srcDir)] ∧
  fsys w1 = fsys w.
Proof.
  rewrite startWatching_result.
  destruct (os_watch_throws _ _ _); [done|]. intros [= <-].
  split_and!; [by eexists| |done].
  unfold produced; simpl. by rewrite drop_app_length.
Qed.

(** The service's watcher hands an [add] event to the [add] listener. *)
Lemma emit_add (srcDir destDir filePath : string) (w : World) :
  serving srcDir destDir w →
  ∃ es fs',
    mover_run filePath (path_join destDir (path_basename filePath))
      default_retries (fsys w) es fs' ∧
    emit (EvAdd filePath) w =
    (Resolved tt,
     emit_effects (Emit (EvAdd filePath) :: Log LInfo (msg_detected filePath) :: es)
       (set_fsys fs' w)).
Proof.
  intros [known Hw]. unfold emit. rewrite Hw. simpl. run_code.
  destruct (onAdd_run destDir filePath (emit_effects [Emit (EvAdd filePath)] w))
    as (es & fs' & Hrun & ->).
  exists es, fs'. split; [done|].
  unfold emit_effects, set_fsys; simpl. by rewrite <- app_assoc.
Qed.

(** The service's watcher hands an [error] event to the [error] listener,
    which logs it. *)
Lemma emit_error (srcDir destDir : string) (e : JsError) (w : World) :
  serving srcDir destDir w →
  emit (EvError e) w =
  (Resolved tt,
   emit_effects [Emit (EvError e);
                 Log LError ("Watcher error: " +:+ err_message e)] w).
Proof.
  intros [known Hw]. unfold emit. rewrite Hw. simpl. unfold onError. run_code.
  unfold emit_effects; simpl. by rewrite <- app_assoc.
Qed.

Lemma emit_adds (srcDir destDir : string) (files : list string) (w : World) :
  serving srcDir destDir w →
  ∃ es fs',
    adds_run destDir files (fsys w) es fs' ∧
    run_each (emit <$> (EvAdd <$> files)) w =
    (Resolved tt, emit_effects es (set_fsys fs' w)).
Proof.
  revert w. induction files as [|f files IH]; intros w Hw.
  - exists [], (fsys w). split; [constructor|].
    simpl. run_code. destruct w. unfold emit_effects, set_fsys; simpl.
    by rewrite app_nil_r.
  - destruct (emit_add _ _ f _ Hw) as (es & fs1 & Hrun & Heq).
    change (run_each (emit <$> (EvAdd <$> f :: files)) w)
      with ((emit (EvAdd f) ;; run_each (emit <$> (EvAdd <$> files))) w).
    unfold mbind, M_bind. rewrite Heq.
    match goal with |- context [run_each _ ?w1] =>
      destruct (IH w1) as (es' & fs' & Hadds & ->) end.
    { destruct Hw as [known Hw]. by exists known. }
    eexists _, fs'. split; [eapply adds_next; eauto|].
    unfold emit_effects, set_fsys; simpl. by rewrite <- !app_assoc.
Qed.

#[local] Arguments emit : simpl never.
#[local] Arguments run_each : simpl never.

(** One polling tick of the service's watcher. *)
Lemma poll_result (srcDir destDir : string) (known : list string) (w : World) :
  watcher w = Some (service_watcher srcDir destDir known) →
  match os_scan srcDir (elapse 1000 (fsys w)) with
  | ScanError e =>
    chokidar_poll w =
    (Resolved tt,
     emit_effects [Poll 1000; Emit (EvError e);
                   Log LError ("Watcher error: " +:+ err_message e)]
       (set_fsys (elapse 1000 (fsys w)) w))
  | ScanFiles files =>
    ∃ es fs',
      adds_run destDir (fresh_files known files) (elapse 1000 (fsys w)) es fs' ∧
      chokidar_poll w =
      (Resolved tt,
       emit_effects (Poll 1000 :: es)
         (set_fsys fs'
            (set_watcher (Some (service_watcher srcDir destDir files)) w)))
  end.
Proof.
  intros Hw. unfold chokidar_poll. rewrite Hw. simpl.
  destruct (os_scan srcDir (elapse 1000 (fsys w))) as [files|e].
  - match goal with |- context [run_each _ ?w1] =>
      destruct (emit_adds srcDir destDir (fresh_files known files) w1)
        as (es & fs' & Hadds & Heq) end.
    { by exists files. }
    exists es, fs'. split; [done|]. rewrite Heq.
    unfold emit_effects, set_fsys, set_watcher; simpl. by rewrite <- app_assoc.
  - erewrite emit_error; [|by exists known].
    unfold emit_effects, set_fsys; simpl. by rewrite <- app_assoc.
Qed.

Lemma add_events_app (es es' : list Effect) :
  add_events (es ++ es') = add_events es ++ add_events es'.
Proof. apply omap_app. Qed.

Lemma mover_add_events (srcPath destPath : string) (es : list Effect) :
  Forall (mover_effect srcPath destPath) es → add_events es = [].
Proof.
  induction 1 as [|e es He Hes IH]; [done|].
  change (e :: es) with ([e] ++ es). rewrite add_events_app, IH.
  by destruct e as [| | | | | | | |[]|].
Qed.

Lemma adds_events (destDir : string) files fs es fs' :
  adds_run destDir files fs es fs' → add_events es = files.
Proof.
  induction 1 as [|f files fs es fs1 es' fs' Hrun Hadds IH]; [done|].
  change (add_events ([Emit (EvAdd f); Log LInfo (msg_detected f)] ++ es ++ es')
          = f :: files).
  rewrite !add_events_app, IH.
  by rewrite (mover_add_events _ _ _ (run_effects _ _ _ _ _ _ Hrun)).
Qed.

Lemma adds_moves (destDir : string) files fs es fs' :
  adds_run destDir files fs es fs' →
  ∀ src dest opts out, FsMove src dest opts out ∈ es →
    src ∈ files ∧ dest = path_join destDir (path_basename src) ∧
    opts = move_options.
Proof.
  induction 1 as [|f files fs es fs1 es' fs' Hrun Hadds IH];
    intros src dest opts out Hin.
  - by apply elem_of_nil in Hin.
  - rewrite !elem_of_cons, elem_of_app in Hin.
    destruct Hin as [|[|[Hin|Hin]]]; try done.
    + apply run_effects in Hrun. rewrite Forall_forall in Hrun.
      apply Hrun in Hin as (-> & -> & ->). split_and!; try done. by left.
    + destruct (IH _ _ _ _ Hin) as (? & ? & ?). split_and!; try done. by right.
Qed.

Lemma adds_polls (destDir : string) files fs es fs' :
  adds_run destDir files fs es fs' → ∀ ms, Poll ms ∉ es.
Proof.
  induction 1 as [|f files fs es fs1 es' fs' Hrun Hadds IH]; intros ms Hin.
  - by apply elem_of_nil in Hin.
  - rewrite !elem_of_cons, elem_of_app in Hin.
    destruct Hin as [|[|[Hin|Hin]]]; try done; [|by eapply IH].
    apply run_effects in Hrun. rewrite Forall_forall in Hrun.
    by apply Hrun in Hin.
Qed.

Lemma adds_failure_free (destDir : string) files fs es fs' :
  adds_run destDir files fs es fs' → ∀ e, UnhandledRejection e ∉ es.
Proof.
  induction 1 as [|f files fs es fs1 es' fs' Hrun Hadds IH]; intros ms Hin.
  - by apply elem_of_nil in Hin.
  - rewrite !elem_of_cons, elem_of_app in Hin.
    destruct Hin as [|[|[Hin|Hin]]]; try done; [|by eapply IH].
    apply run_effects in Hrun. rewrite Forall_forall in Hrun.
    by apply Hrun in Hin.
Qed.

(** One tick, told by what it adds to the trace: the service goes on, a
    reported file is one the watcher did not know and the scan shows, and a
    known file that is still shown stays known. *)
Lemma poll_step (srcDir destDir : string) (known : list string) (w : World) :
  watcher w = Some (service_watcher srcDir destDir known) →
  ∃ es w' known',
    chokidar_poll w = (Resolved tt, w') ∧
    trace w' = trace w ++ es ∧
    watcher w' = Some (service_watcher srcDir destDir known') ∧
    (∀ ms, Poll ms ∈ es → ms = 1000) ∧
    (∀ e, UnhandledRejection e ∉ es) ∧
    (∀ f, Emit (EvAdd f) ∈ es ∨ (∃ d o out, FsMove f d o out ∈ es) →
          f ∉ known) ∧
    (∀ f, f ∈ known →
          match os_scan srcDir (elapse 1000 (fsys w)) with
          | ScanFiles files => f ∈ files
          | ScanError _ => True
          end → f ∈ known').
Proof.
  intros Hw. pose proof (poll_result _ _ _ _ Hw) as Hpoll.
  destruct (os_scan srcDir (elapse 1000 (fsys w))) as [files|e].
  - destruct Hpoll as (es & fs' & Hadds & ->).
    eexists _, _, files. split_and!; try done.
    + intros ms [[= ->]|Hin]%elem_of_cons; [done|].
      by apply (adds_polls _ _ _ _ _ Hadds) in Hin.
    + intros e [|Hin]%elem_of_cons; [done|].
      by apply (adds_failure_free _ _ _ _ _ Hadds) in Hin.
    + intros f Hf.
      assert (f ∈ fresh_files known files) as Hfresh.
      { destruct Hf as [Hin|(d & o & out & Hin)];
          apply elem_of_cons in Hin as [|Hin]; try done.
        - rewrite <- (adds_events _ _ _ _ _ Hadds). unfold add_events.
          apply list_elem_of_omap. by exists (Emit (EvAdd f)).
        - by apply (adds_moves _ _ _ _ _ Hadds) in Hin as (? & _). }
      unfold fresh_files in Hfresh. by apply list_elem_of_filter in Hfresh as [? _].
  - rewrite Hpoll. eexists _, _, known. split_and!; try done.
    + intros ms Hin. in_list Hin. by injection Hin as ->.
    + intros e' Hin. in_list Hin.
    + intros f [Hin|(d & o & out & Hin)]; in_list Hin.
Qed.

(** The ticks of the running service: it goes on for ever, polling every
    second, and reports no file it has known all along. *)
Lemma polls_run (srcDir destDir : string) (n : nat) :
  ∀ (known : list string) (w : World),
  watcher w = Some (service_watcher srcDir destDir known) →
  ∃ es w',
    run_polls n w = (Resolved tt, w') ∧
    trace w' = trace w ++ es ∧
    serving srcDir destDir w' ∧
    (∀ ms, Poll ms ∈ es → ms = 1000) ∧
    (∀ e, UnhandledRejection e ∉ es) ∧
    (∀ f, f ∈ known → stays_listed n srcDir f w →
          (Emit (EvAdd f) ∉ es) ∧ (∀ d o out, FsMove f d o out ∉ es)).
Proof.
  induction n as [|n IH]; intros known w Hw.
  - exists [], w. split_and!; try done.
    + by rewrite app_nil_r.
    + by exists known.
    + intros ms Hin. by apply elem_of_nil in Hin.
    + intros e Hin. by apply elem_of_nil in Hin.
    + intros f _ _. split; [|intros d o out]; intros Hin; by apply elem_of_nil in Hin.
  - destruct (poll_step _ _ _ _ Hw)
      as (es1 & w1 & known1 & Heq1 & Htr1 & Hw1 & Hms1 & Hrej1 & Hnew1 & Hkeep1).
    destruct (IH known1 w1 Hw1)
      as (es2 & w2 & Heq2 & Htr2 & Hw2 & Hms2 & Hrej2 & Hold2).
    exists (es1 ++ es2), w2. split_and!.
    + simpl. unfold mbind, M_bind. by rewrite Heq1.
    + by rewrite Htr2, Htr1, app_assoc.
    + done.
    + intros ms [?|?]%elem_of_app; eauto.
    + intros e [?|?]%elem_of_app; [by eapply Hrej1|by eapply Hrej2].
    + intros f Hf [Hshown Hrest]. rewrite Heq1 in Hrest. simpl in Hrest.
      destruct (Hold2 f (Hkeep1 f Hf Hshown) Hrest) as [Hno2 Hmv2].
      split.
      * intros [Hin|Hin]%elem_of_app; [|done].
        by apply (Hnew1 f); [left|].
      * intros d o out [Hin|Hin]%elem_of_app; [|by eapply Hmv2].
        apply (Hnew1 f); [|done]. right. eauto.
Qed.

Lemma produced_extends (w w' : World) (es : list Effect) :
  trace w' = trace w ++ es → produced w w' = es.
Proof. intros Htr. unfold produced. by rewrite Htr, drop_app_length. Qed.

(** C5. [startWatching] asks chokidar to ignore the files already there and
    to poll every 1000 ms, and reports nothing itself.  From then on no file
    that was in the directory when watching began, and has been there at each
    scan since, is reported by an [add] event or handed to the mover; at each
    tick the files reported are those the scan shows and the scan before did
    not; and every tick comes 1000 ms after the one before. *)
Theorem initial_files_are_not_moved (srcDir destDir : string) (w0 w1 : World) :
  startWatching srcDir destDir w0 = (Resolved tt, w1) →
  produced w0 w1 = [Log LInfo ("Watching directory: " +:+ srcDir)] ∧
  (∃ wt, watcher w1 = Some wt ∧
         ignoreInitial (w_options wt) = true ∧
         usePolling (w_options wt) = true ∧
         interval (w_options wt) = 1000 ∧
         w_known wt = initial_files srcDir (fsys w0)) ∧
  ∀ n,
    let w := (run_polls n w1).2 in
    (run_polls n w1).1 = Resolved tt ∧
    (∀ ms, Poll ms ∈ produced w1 w → ms = 1000) ∧
    (∀ f, f ∈ initial_files srcDir (fsys w0) →
          stays_listed n srcDir f w1 →
          (Emit (EvAdd f) ∉ produced w1 w) ∧
          (∀ d o out, FsMove f d o out ∉ produced w1 w)) ∧
    (∃ known, watcher w = Some (service_watcher srcDir destDir known) ∧
       ∀ files, os_scan srcDir (elapse 1000 (fsys w)) = ScanFiles files →
         add_events (produced w (chokidar_poll w).2) = fresh_files known files).
Proof.
  intros Hstart. rewrite startWatching_result in Hstart.
  destruct (os_watch_throws _ _ _); [done|]. injection Hstart as <-.
  split_and!.
  - unfold produced; simpl. by rewrite drop_app_length.
  - by eexists.
  - intros n w.
    match type of w with World => set (w1 := emit_effects _ _) in * end.
    destruct (polls_run srcDir destDir n (initial_files srcDir (fsys w0)) w1)
      as (es & w' & Heq & Htr & [known Hw'] & Hms & _ & Hold); [done|].
    assert (w = w') as -> by (subst w; by rewrite Heq).
    rewrite (produced_extends _ _ _ Htr). split_and!; try done.
    + by rewrite Heq.
    + exists known. split; [done|]. intros files Hscan.
      pose proof (poll_result _ _ _ _ Hw') as Hpoll. rewrite Hscan in Hpoll.
      destruct Hpoll as (es' & fs' & Hadds & ->). simpl.
      rewrite (produced_extends _ _ (Poll 1000 :: es')); [|done].
      change (Poll 1000 :: es') with ([Poll 1000] ++ es').
      rewrite add_events_app. by rewrite (adds_events _ _ _ _ _ Hadds).
Qed.

(** C8. In the running service an [error] event of the watcher resolves
    after one line at error level and changes nothing else: the watcher, its
    listeners and the files it knows are as before, nothing exits or throws,
    and the polling ticks that follow are served as usual.  A scan that fails
    is such an event. *)
Theorem watcher_error_is_logged_only (srcDir destDir : string) (n : nat)
    (w0 w1 : World) (e : JsError) :
  startWatching srcDir destDir w0 = (Resolved tt, w1) →
  let w := (run_polls n w1).2 in
  emit (EvError e) w =
  (Resolved tt,
   emit_effects [Emit (EvError e);
                 Log LError ("Watcher error: " +:+ err_message e)] w) ∧
  (∀ m, (run_polls m (emit (EvError e) w).2).1 = Resolved tt ∧
        serving srcDir destDir (run_polls m (emit (EvError e) w).2).2) ∧
  (os_scan srcDir (elapse 1000 (fsys w)) = ScanError e →
   chokidar_poll w =
   (Resolved tt,
    emit_effects [Poll 1000; Emit (EvError e);
                  Log LError ("Watcher error: " +:+ err_message e)]
      (set_fsys (elapse 1000 (fsys w)) w))).
Proof.
  intros Hstart w.
  apply startWatching_serving in Hstart as ([known1 Hw1] & _).
  destruct (polls_run srcDir destDir n known1 w1 Hw1)
    as (es & w' & Heq & _ & [known Hw] & _).
  assert (w = w') as -> by (subst w; by rewrite Heq).
  assert (serving srcDir destDir w') as Hserving by by exists known.
  split_and!.
  - by apply (emit_error srcDir destDir).
  - intros m. rewrite (emit_error srcDir destDir) by done. simpl.
    destruct (polls_run srcDir destDir m known
      (emit_effects [Emit (EvError e);
                     Log LError ("Watcher error: " +:+ err_message e)] w'))
      as (es2 & w2 & -> & _ & Hw2 & _); done.
  - intros Hscan. pose proof (poll_result _ _ _ _ Hw) as Hpoll.
    by rewrite Hscan in Hpoll.
Qed.

(** The [fs.move] calls of the [add] listener are on the detected path and
    the destination made from its base name. *)
Lemma onAdd_moves (destDir filePath : string) (w : World) src dest opts out :
  FsMove src dest opts out ∈ produced w (onAdd destDir filePath w).2 →
  src = filePath ∧ dest = path_join destDir (path_basename filePath).
Proof.
  destruct (onAdd_run destDir filePath w) as (es' & fs' & Hrun & ->).
  simpl. rewrite produced_emit. intros [|Hin]%elem_of_cons; [done|].
  apply run_effects in Hrun. rewrite Forall_forall in Hrun.
  by apply Hrun in Hin as (-> & -> & _).
Qed.

(** C10. For a detected file the [add] listener calls the mover with the
    detected path as source and, as destination, [destDir] joined with the
    base name of that path; all [fs.move] calls that follow are on this pair,
    and there is at least one.  So two files with the same base name, in
    whatever subdirectories, get the same destination. *)
Theorem destination_is_destDir_with_basename (destDir filePath : string)
    (w : World) :
  let destPath := path_join destDir (path_basename filePath) in
  let es := produced w (onAdd destDir filePath w).2 in
  listener_call (EvAdd filePath) (AddListener destDir)
    = Some (onAdd destDir filePath) ∧
  (∃ rest,
     es = Log LInfo (msg_detected filePath)
          :: Log LInfo (msg_attempt filePath destPath)
          :: FsMove filePath destPath move_options
               (os_move filePath destPath move_options (fsys w)).1
          :: rest) ∧
  (∀ src dest opts out, FsMove src dest opts out ∈ es →
     src = filePath ∧ dest = destPath) ∧
  (∀ other src dest opts out,
     path_basename other = path_basename filePath →
     FsMove src dest opts out ∈ produced w (onAdd destDir other w).2 →
     dest = destPath).
Proof.
  intros destPath es. split_and!.
  - done.
  - subst es. destruct (onAdd_run destDir filePath w) as (es' & fs' & Hrun & ->).
    simpl. rewrite produced_emit.
    destruct (run_first_attempt _ _ _ _ _ _ Hrun) as [rest ->]. by exists rest.
  - intros src dest opts out Hin. by apply onAdd_moves in Hin.
  - intros other src dest opts out Hbase Hin.
    apply onAdd_moves in Hin as [_ ->]. subst destPath. by rewrite Hbase.
Qed.

(** *** Start-up *)

(** X15. Start-up ends the process only with code 1, and only before a
    watcher exists: [startWatching] is not reached. *)
Lemma startService_exits_before_watching (w : World) (code : Z) :
  (startService w).1 = Exited code →
  code = 1 ∧ watcher (startService w).2 = watcher w.
Proof.
  unfold startService, ensureLogDirectory, loadEnv, ensureEnvFile,
    fs_ensureDir, fs_pathExists, fs_writeFile, dotenv_config, process_env.
  run_code.
  repeat (case_match; simpl in *; simplify_eq; try done);
    try (intros [= <-]; done).
  all: match goal with
       | |- context [startWatching ?s ?d ?w1] =>
         rewrite (startWatching_result s d w1)
       end; by case_match.
Qed.

(** X13. [loadEnv] returns only with the three values set and not empty,
    and returns them as [process.env] has them; otherwise the process exits
    with code 1.  It never throws. *)
Lemma loadEnv_needs_values (w : World) :
  match (loadEnv w).1 with
  | Resolved (srcDir, destDir, fileName) =>
    env (loadEnv w).2 !! "SRC" = Some srcDir ∧ srcDir ≠ "" ∧
    env (loadEnv w).2 !! "DEST" = Some destDir ∧ destDir ≠ "" ∧
    env (loadEnv w).2 !! "FILE_NAME" = Some fileName ∧ fileName ≠ ""
  | Exited code => code = 1
  | Rejected _ => False
  end.
Proof.
  unfold loadEnv, ensureEnvFile, fs_pathExists, fs_writeFile, dotenv_config,
    process_env, not_set.
  run_code.
  repeat (case_match; simpl in *; simplify_eq; try done).
  all: repeat match goal with
       | H : _ || _ = false |- _ => apply orb_false_iff in H as [? ?]
       | H : bool_decide _ = false |- _ => apply bool_decide_eq_false_1 in H
       end; by split_and!.
Qed.

(** C6, as the code has it.  [startWatching] does not look at the directory:
    whenever [chokidar.watch] returns, be the directory missing or
    unreadable, it attaches its two listeners, logs one line at info level
    and returns.  Nothing is reported as a failure, nothing exits, and the
    polling ticks are served. *)
Theorem startWatching_makes_no_check (srcDir destDir : string) (w : World) :
  os_watch_throws srcDir watch_options (fsys w) = None →
  startWatching srcDir destDir w =
  (Resolved tt,
   emit_effects [Log LInfo ("Watching directory: " +:+ srcDir)]
     (set_watcher
        (Some (service_watcher srcDir destDir (initial_files srcDir (fsys w))))
        w)) ∧
  count is_failure_report (produced w (startWatching srcDir destDir w).2) = 0%nat ∧
  ∀ n, (run_polls n (startWatching srcDir destDir w).2).1 = Resolved tt.
Proof.
  intros Hreturns. rewrite startWatching_result, Hreturns. split_and!.
  - done.
  - simpl. unfold produced; simpl. by rewrite drop_app_length.
  - intros n. simpl.
    match goal with |- context [run_polls n ?w1] =>
      destruct (polls_run srcDir destDir n (initial_files srcDir (fsys w)) w1)
        as (es & w' & -> & _) end; done.
Qed.

(** *** More on the mover *)

Lemma total_delay_app (es es' : list Effect) :
  total_delay (es ++ es') = total_delay es + total_delay es'.
Proof.
  induction es as [|e es IH]; simpl; [lia|]. destruct e; simpl; lia.
Qed.

Lemma warn_lines_app (es es' : list Effect) :
  warn_lines (es ++ es') = warn_lines es ++ warn_lines es'.
Proof. apply omap_app. Qed.

(** A run is told by where it starts. *)
Lemma mover_run_functional (srcPath destPath : string) retries fs es1 fs1 es2 fs2 :
  mover_run srcPath destPath retries fs es1 fs1 →
  mover_run srcPath destPath retries fs es2 fs2 →
  es1 = es2 ∧ fs1 = fs2.
Proof.
  intros Hrun. revert es2 fs2.
  induction Hrun as [retries fs fs' Hmove
                    |retries fs error fs1 es fs' Hmove Hleft Hbusy Hrun IH
                    |retries fs error fs1 Hmove Hstop]; intros es2 fs2 Hrun2.
  - inversion Hrun2 as [? ? ? Hmove2
                        | ? ? error2 fs1' es' ? Hmove2 _ _ Hrest
                        | ? ? error2 fs1' Hmove2 Hstop2]; subst;
      rewrite Hmove in Hmove2; by simplify_eq.
  - inversion Hrun2 as [? ? ? Hmove2
                        | ? ? error2 fs1' es' ? Hmove2 _ _ Hrest
                        | ? ? error2 fs1' Hmove2 Hstop2]; subst;
      rewrite Hmove in Hmove2; simplify_eq.
    + by destruct (IH _ _ Hrest) as [-> ->].
    + rewrite Hbusy, bool_decide_eq_true_2 in Hstop2 by done. done.
  - inversion Hrun2 as [? ? ? Hmove2
                        | ? ? error2 fs1' es' ? Hmove2 Hleft2 Hbusy2 Hrest
                        | ? ? error2 fs1' Hmove2 Hstop2]; subst;
      rewrite Hmove in Hmove2; simplify_eq.
    + rewrite Hbusy2, bool_decide_eq_true_2 in Hstop by done. done.
    + done.
Qed.

(** The counts of a run that its length decides. *)
Lemma run_more_counts (srcPath destPath : string) retries fs es fs' :
  mover_run srcPath destPath retries fs es fs' →
  total_delay es = 1000 * Z.of_nat (count (is_log LWarn) es) ∧
  count (is_log LInfo) es
    = (count is_attempt es + count is_effective_move es)%nat ∧
  warn_lines es = msg_retry <$> countdown retries (count (is_log LWarn) es).
Proof.
  induction 1 as [retries fs fs' Hmove
                 |retries fs error fs1 es fs' Hmove Hleft Hbusy Hrun IH
                 |retries fs error fs1 Hmove Hstop]; [done| |done].
  destruct IH as (Hdelay & Hinfo & Hwarn).
  rewrite total_delay_app, warn_lines_app, !count_app, Hdelay, Hinfo, Hwarn.
  change (count (is_log LWarn) [_; _; _; _]) with 1%nat.
  split_and!.
  - simpl. lia.
  - done.
  - simpl. unfold countdown. simpl. f_equal; [f_equal; lia|].
    rewrite <- !list_fmap_compose, <- (fmap_S_seq 0), <- list_fmap_compose.
    apply list_fmap_ext. intros ? k ?. simpl. f_equal. lia.
Qed.

(** X1. Whatever happens, [moveFile] makes at most [retries + 1] attempts
    (one if [retries] is negative); it warns and waits a second once before
    each attempt after the first, so it waits [1000] ms times the number of
    its warnings; it logs an info line before each attempt and one more when
    an attempt takes effect; and it ends with exactly one of an effective
    move and an error line. *)
Theorem moveFile_attempts_are_bounded (srcPath destPath : string)
    (retries : Z) (w : World) :
  let es := produced w (moveFile srcPath destPath retries w).2 in
  count is_attempt es = S (count (is_log LWarn) es) ∧
  (count is_attempt es ≤ S (Z.to_nat retries))%nat ∧
  count is_delay es = count (is_log LWarn) es ∧
  total_delay es = 1000 * Z.of_nat (count (is_log LWarn) es) ∧
  count (is_log LInfo) es
    = (count is_attempt es + count is_effective_move es)%nat ∧
  (count is_effective_move es + count (is_log LError) es = 1)%nat.
Proof.
  intros es.
  destruct (moveFile_produced srcPath destPath retries w) as (fs' & Hrun & _).
  fold es in Hrun.
  destruct (run_counts _ _ _ _ _ _ Hrun) as (Hatt & Hwait & Hwarn & Hend).
  destruct (run_more_counts _ _ _ _ _ _ Hrun) as (Hdelay & Hinfo & _).
  split_and!; try done; [lia|].
  destruct Hend as [(_ & -> & ->)|(? & _ & _ & -> & ->)]; done.
Qed.

(** X2. The warnings of a run count down: the first says [retries] retries
    are left, the next [retries - 1], and so on. *)
Theorem moveFile_warnings_count_down (srcPath destPath : string)
    (retries : Z) (w : World) :
  let es := produced w (moveFile srcPath destPath retries w).2 in
  warn_lines es = msg_retry <$> countdown retries (count (is_log LWarn) es).
Proof.
  intros es.
  destruct (moveFile_produced srcPath destPath retries w) as (fs' & Hrun & _).
  fold es in Hrun. by destruct (run_more_counts _ _ _ _ _ _ Hrun) as (_ & _ & ?).
Qed.

(** X3. With no retry to spend ([retries] zero or negative) [moveFile] makes
    one attempt and stops: even a busy file gets no warning, no wait and no
    second attempt, only the error line. *)
Theorem moveFile_without_retries_tries_once (srcPath destPath : string)
    (retries : Z) (w : World) :
  retries ≤ 0 →
  let es := produced w (moveFile srcPath destPath retries w).2 in
  count is_attempt es = 1%nat ∧
  count (is_log LWarn) es = 0%nat ∧
  count is_delay es = 0%nat ∧
  ∀ error fs1,
    os_move srcPath destPath move_options (fsys w) = (Some error, fs1) →
    moveFile srcPath destPath retries w =
    (Resolved tt,
     emit_effects [Log LInfo (msg_attempt srcPath destPath);
                   FsMove srcPath destPath move_options (Some error);
                   Log LError (msg_failed error)] (set_fsys fs1 w)).
Proof.
  intros Hnone es.
  destruct (moveFile_produced srcPath destPath retries w) as (fs' & Hrun & _).
  fold es in Hrun.
  destruct (run_counts _ _ _ _ _ _ Hrun) as (Hatt & Hwait & Hwarn & _).
  assert (count (is_log LWarn) es = 0%nat) as Hzero by lia.
  split_and!; [lia|done|lia|].
  intros error fs1 Hmove. apply moveFile_failed; [done|].
  by rewrite bool_decide_eq_false_2 by lia.
Qed.

(** A run whose first [k] attempts fail busy and whose next one takes
    effect, with retries enough for them. *)
Lemma run_busy_then_free (srcPath destPath : string) retries fs es fs' (k : nat) :
  mover_run srcPath destPath retries fs es fs' →
  Z.of_nat k ≤ retries →
  busy_then_free k srcPath destPath fs →
  count (is_log LWarn) es = k ∧
  last es = Some (Log LInfo (msg_moved srcPath destPath)).
Proof.
  intros Hrun. revert k.
  induction Hrun as [retries fs fs' Hmove
                    |retries fs error fs1 es fs' Hmove Hleft Hbusy Hrun IH
                    |retries fs error fs1 Hmove Hstop]; intros k Hk Hfree.
  - destruct k as [|k]; [done|].
    destruct Hfree as (e & f & He & _). congruence.
  - destruct k as [|k]; [destruct Hfree as (f & Hf); congruence|].
    destruct Hfree as (e & f & He & _ & Hnext).
    assert (f = fs1) as -> by congruence.
    destruct (IH k) as [Hwarn Hlast]; [lia|done|].
    rewrite count_app, Hwarn, last_app, Hlast. done.
  - destruct k as [|k]; [destruct Hfree as (f & Hf); congruence|].
    destruct Hfree as (e & f & He & Hcode & _).
    assert (e = error) as -> by congruence.
    unfold is_busy in Hstop.
    rewrite (bool_decide_eq_true_2 (err_code error = _)) in Hstop by done.
    rewrite bool_decide_eq_true_2 in Hstop by lia. done.
Qed.

(** X4. When the file is busy for the first [k] attempts and free at the next
    one, and [k] is at most [retries], [moveFile] moves the file at attempt
    [k + 1]: after [k] warnings and [k] seconds of waiting, with no error
    line, and with the success line as its last. *)
Theorem moveFile_moves_once_the_file_is_free (srcPath destPath : string)
    (retries : Z) (k : nat) (w : World) :
  busy_then_free k srcPath destPath (fsys w) →
  Z.of_nat k ≤ retries →
  let es := produced w (moveFile srcPath destPath retries w).2 in
  count is_attempt es = S k ∧
  count (is_log LWarn) es = k ∧
  total_delay es = 1000 * Z.of_nat k ∧
  count (is_log LError) es = 0%nat ∧
  count is_effective_move es = 1%nat ∧
  last es = Some (Log LInfo (msg_moved srcPath destPath)).
Proof.
  intros Hfree Hk es.
  destruct (moveFile_produced srcPath destPath retries w) as (fs' & Hrun & _).
  fold es in Hrun.
  destruct (run_busy_then_free _ _ _ _ _ _ k Hrun Hk Hfree) as [Hwarn Hlast].
  destruct (run_counts _ _ _ _ _ _ Hrun) as (Hatt & _ & _ & Hend).
  destruct (run_more_counts _ _ _ _ _ _ Hrun) as (Hdelay & _ & _).
  destruct Hend as [(_ & Heff & Herr)|(error & Hl & _)]; [|congruence].
  split_and!; try done; [by rewrite Hatt, Hwarn|by rewrite Hdelay, Hwarn].
Qed.

(** X5. For any number of retries, when every attempt fails busy [moveFile]
    makes [retries + 1] attempts, warns [retries] times, and ends with one
    error line that tells the busy error; nothing is moved. *)
Theorem moveFile_spends_all_retries (srcPath destPath : string) (retries : Z)
    (w : World) :
  0 ≤ retries →
  always_busy (Z.to_nat retries) srcPath destPath (fsys w) →
  let es := produced w (moveFile srcPath destPath retries w).2 in
  count is_attempt es = S (Z.to_nat retries) ∧
  count (is_log LWarn) es = Z.to_nat retries ∧
  total_delay es = 1000 * retries ∧
  count (is_log LError) es = 1%nat ∧
  count is_effective_move es = 0%nat ∧
  ∃ error, last es = Some (Log LError (msg_failed error)) ∧
           err_code error = Some "EBUSY".
Proof.
  intros Hpos Hbusy es.
  destruct (moveFile_produced srcPath destPath retries w) as (fs' & Hrun & _).
  fold es in Hrun.
  destruct (run_always_busy _ _ _ _ _ _ Hrun Hpos Hbusy)
    as (Hatt & Hwarn & error & Hlast & Hcode).
  destruct (run_counts _ _ _ _ _ _ Hrun) as (_ & _ & _ & Hend).
  destruct (run_more_counts _ _ _ _ _ _ Hrun) as (Hdelay & _ & _).
  destruct Hend as [(Hl & _)|(error' & _ & _ & Heff & Herr)]; [congruence|].
  split_and!; try done; [rewrite Hdelay, Hwarn; lia|by exists error].
Qed.

(** X6. [moveFile] reads and changes nothing of the process but the file
    system and the log: [process.env] and the watcher are as before, the
    effects so far stay as they are, and the new ones are log lines, calls of
    [fs.move] on the two paths with [overwrite], and waits of a second; there
    is no console output, no file written and no event. *)
Theorem moveFile_changes_files_and_log_only (srcPath destPath : string)
    (retries : Z) (w : World) :
  let w' := (moveFile srcPath destPath retries w).2 in
  env w' = env w ∧
  watcher w' = watcher w ∧
  trace w' = trace w ++ produced w w' ∧
  Forall (mover_effect srcPath destPath) (produced w w').
Proof.
  intros w'.
  destruct (moveFile_produced srcPath destPath retries w) as (fs' & Hrun & Heq).
  fold w' in Hrun, Heq.
  assert (w' = emit_effects (produced w w') (set_fsys fs' w)) as Hw'.
  { unfold w' at 1. by rewrite Heq. }
  split_and!.
  - by rewrite Hw'.
  - by rewrite Hw'.
  - rewrite Hw' at 1. done.
  - by apply run_effects in Hrun.
Qed.

(** X7. What [moveFile] does depends on the file system alone: in two worlds
    with the same file system, whatever their environment, watcher and past,
    it has the same effects and leaves the same file system. *)
Theorem moveFile_depends_on_files_only (srcPath destPath : string)
    (retries : Z) (w1 w2 : World) :
  fsys w1 = fsys w2 →
  produced w1 (moveFile srcPath destPath retries w1).2
    = produced w2 (moveFile srcPath destPath retries w2).2 ∧
  fsys (moveFile srcPath destPath retries w1).2
    = fsys (moveFile srcPath destPath retries w2).2.
Proof.
  intros Hfs.
  destruct (moveFile_run srcPath destPath retries w1) as (es1 & fs1 & Hrun1 & ->).
  destruct (moveFile_run srcPath destPath retries w2) as (es2 & fs2 & Hrun2 & ->).
  rewrite Hfs in Hrun1.
  destruct (mover_run_functional _ _ _ _ _ _ _ _ Hrun1 Hrun2) as [-> ->].
  simpl. by rewrite !produced_emit.
Qed.

(** X8. For one detected file the [add] listener logs its line first and
    then lets the mover make between one and four attempts, with at most
    three warnings and three seconds of waiting; it writes nothing to the
    console and changes neither [process.env] nor the watcher. *)
Theorem onAdd_makes_at_most_four_attempts (destDir filePath : string)
    (w : World) :
  let w' := (onAdd destDir filePath w).2 in
  let es := produced w w' in
  head es = Some (Log LInfo (msg_detected filePath)) ∧
  (1 ≤ count is_attempt es ≤ 4)%nat ∧
  (count (is_log LWarn) es ≤ 3)%nat ∧
  total_delay es ≤ 3000 ∧
  env w' = env w ∧
  watcher w' = watcher w.
Proof.
  intros w' es. subst es w'.
  destruct (onAdd_run destDir filePath w) as (es & fs' & Hrun & ->).
  simpl. rewrite produced_emit.
  destruct (run_counts _ _ _ _ _ _ Hrun) as (Hatt & _ & Hwarn & _).
  destruct (run_more_counts _ _ _ _ _ _ Hrun) as (Hdelay & _ & _).
  change (Log LInfo (msg_detected filePath) :: es)
    with ([Log LInfo (msg_detected filePath)] ++ es).
  rewrite !count_app, total_delay_app. unfold default_retries in Hwarn.
  change (count is_attempt [_]) with 0%nat.
  change (count (is_log LWarn) [_]) with 0%nat.
  change (total_delay [_]) with 0.
  split_and!; try done; lia.
Qed.

(** *** More on start-up *)

Lemma ensureEnvFile_keeps_existing_file_aux (w : World) :
  os_pathExists envFilePath (fsys w) = true →
  ensureEnvFile w = (Resolved tt, w).
Proof.
  intros Hthere. unfold ensureEnvFile, fs_pathExists. run_code.
  by rewrite Hthere.
Qed.

(** X9. [ensureEnvFile] leaves an [.env] file that exists alone: it writes
    nothing, prints nothing and returns, so that the values a user has put
    there are never replaced by the defaults. *)
Theorem ensureEnvFile_keeps_existing_file (w : World) :
  os_pathExists envFilePath (fsys w) = true →
  ensureEnvFile w = (Resolved tt, w) ∧
  ∀ file data out, FsWriteFile file data out ∉ produced w (ensureEnvFile w).2.
Proof.
  intros Hthere. rewrite (ensureEnvFile_keeps_existing_file_aux w Hthere).
  split; [done|]. intros file data out. unfold produced. simpl.
  rewrite drop_all. apply not_elem_of_nil.
Qed.

(** Without an [.env] file [ensureEnvFile] writes the default content to
    [envFilePath], once.  If the write succeeds it says so on the console and
    returns; if it fails it prints the error and ends the process with code
    1.  It never throws. *)
Lemma ensureEnvFile_writes_defaults_aux (w : World) :
  os_pathExists envFilePath (fsys w) = false →
  ensureEnvFile w =
  match os_writeFile envFilePath defaultEnvContent (fsys w) with
  | (None, fs') =>
    (Resolved tt,
     emit_effects [FsWriteFile envFilePath defaultEnvContent None;
                   ConsoleLog ".env file created with default values."]
       (set_fsys fs' w))
  | (Some error, fs') =>
    (Exited 1,
     emit_effects [FsWriteFile envFilePath defaultEnvContent (Some error);
                   ConsoleError ("Error creating .env file: Error: "
                                 +:+ err_message error)]
       (set_fsys fs' w))
  end.
Proof.
  intros Hmissing. unfold ensureEnvFile, fs_pathExists, fs_writeFile. run_code.
  rewrite Hmissing. simpl.
  destruct (os_writeFile _ _ _) as [[error|] fs']; simpl;
    unfold emit_effects, set_fsys; simpl; by rewrite <- app_assoc.
Qed.

(** X10. Without an [.env] file [ensureEnvFile] writes the default content to
    [envFilePath], once.  If the write succeeds it says so on the console and
    returns; if it fails it prints the error and ends the process with code
    1.  It never throws. *)
Theorem ensureEnvFile_writes_defaults (w : World) :
  os_pathExists envFilePath (fsys w) = false →
  ensureEnvFile w =
  match os_writeFile envFilePath defaultEnvContent (fsys w) with
  | (None, fs') =>
    (Resolved tt,
     emit_effects [FsWriteFile envFilePath defaultEnvContent None;
                   ConsoleLog ".env file created with default values."]
       (set_fsys fs' w))
  | (Some error, fs') =>
    (Exited 1,
     emit_effects [FsWriteFile envFilePath defaultEnvContent (Some error);
                   ConsoleError ("Error creating .env file: Error: "
                                 +:+ err_message error)]
       (set_fsys fs' w))
  end.
Proof. apply ensureEnvFile_writes_defaults_aux. Qed.

(** X11. Where a file that was written exists afterwards, a second run of
    [ensureEnvFile] does nothing: the file it has created is not written
    again. *)
Theorem ensureEnvFile_second_run_does_nothing (w : World) :
  (∀ fs fs', os_writeFile envFilePath defaultEnvContent fs = (None, fs') →
             os_pathExists envFilePath fs' = true) →
  (ensureEnvFile w).1 = Resolved tt →
  ensureEnvFile (ensureEnvFile w).2 = (Resolved tt, (ensureEnvFile w).2).
Proof.
  intros Hlaw Hfirst.
  destruct (os_pathExists envFilePath (fsys w)) eqn:Hthere.
  - rewrite (ensureEnvFile_keeps_existing_file_aux w Hthere). simpl.
    by apply ensureEnvFile_keeps_existing_file_aux.
  - rewrite (ensureEnvFile_writes_defaults_aux w Hthere) in *.
    destruct (os_writeFile _ _ _) as [[error|] fs'] eqn:Hwrite; [done|].
    simpl. apply ensureEnvFile_keeps_existing_file_aux. simpl. eauto.
Qed.

(** What [ensureLogDirectory] does. *)
Lemma ensureLogDirectory_result (w : World) :
  ensureLogDirectory w =
  match os_ensureDir logDir (fsys w) with
  | (None, fs') =>
    (Resolved tt,
     emit_effects [FsEnsureDir logDir None;
                   ConsoleLog ("Log directory is set at: " +:+ logDir)]
       (set_fsys fs' w))
  | (Some error, fs') =>
    (Exited 1,
     emit_effects [FsEnsureDir logDir (Some error);
                   ConsoleError ("Error creating log directory: Error: "
                                 +:+ err_message error)]
       (set_fsys fs' w))
  end.
Proof.
  unfold ensureLogDirectory, fs_ensureDir. run_code.
  destruct (os_ensureDir _ _) as [[error|] fs']; simpl;
    unfold emit_effects, set_fsys; simpl; by rewrite <- app_assoc.
Qed.

(** What [ensureEnvFile] does, whether the file exists or not. *)
Lemma ensureEnvFile_result (w : World) :
  ∃ es fs',
    Forall startup_effect es ∧
    ((ensureEnvFile w = (Resolved tt, emit_effects es (set_fsys fs' w))) ∨
     (ensureEnvFile w = (Exited 1, emit_effects es (set_fsys fs' w)))).
Proof.
  destruct (os_pathExists envFilePath (fsys w)) eqn:Hthere.
  - exists [], (fsys w). split; [done|]. left.
    rewrite ensureEnvFile_keeps_existing_file_aux by done.
    destruct w. unfold emit_effects, set_fsys. simpl. by rewrite app_nil_r.
  - rewrite ensureEnvFile_writes_defaults_aux by done.
    destruct (os_writeFile _ _ _) as [[error|] fs'];
      eexists _, fs'; (split; [|by eauto]); by repeat constructor.
Qed.

(** [loadEnv] in terms of [ensureEnvFile] and the environment that
    [dotenv.config] makes. *)
Lemma loadEnv_result (w : World) :
  loadEnv w =
  match ensureEnvFile w with
  | (Resolved _, w1) =>
    let loaded := set_env (env_loaded w) w1 in
    if not_set (env_loaded w !! "SRC") || not_set (env_loaded w !! "DEST")
       || not_set (env_loaded w !! "FILE_NAME")
    then (Exited 1, emit_effects [ConsoleError msg_undefined] loaded)
    else (Resolved (default "" (env_loaded w !! "SRC"),
                    default "" (env_loaded w !! "DEST"),
                    default "" (env_loaded w !! "FILE_NAME")), loaded)
  | (Rejected e, w1) => (Rejected e, w1)
  | (Exited c, w1) => (Exited c, w1)
  end.
Proof.
  unfold loadEnv, env_loaded, dotenv_config, process_env. run_code.
  destruct (ensureEnvFile_result w) as (es & fs' & _ & [Heq|Heq]);
    rewrite Heq; simpl; [|done].
  by case_match.
Qed.

(** X12. [ensureLogDirectory] asks once for the directory [logs] under the
    working directory.  If that succeeds it says so on the console and
    returns; if it fails it prints the error and ends the process with code
    1.  It never throws. *)
Theorem ensureLogDirectory_creates_or_exits (w : World) :
  logDir = path_join process_cwd "logs" ∧
  ensureLogDirectory w =
  match os_ensureDir logDir (fsys w) with
  | (None, fs') =>
    (Resolved tt,
     emit_effects [FsEnsureDir logDir None;
                   ConsoleLog ("Log directory is set at: " +:+ logDir)]
       (set_fsys fs' w))
  | (Some error, fs') =>
    (Exited 1,
     emit_effects [FsEnsureDir logDir (Some error);
                   ConsoleError ("Error creating log directory: Error: "
                                 +:+ err_message error)]
       (set_fsys fs' w))
  end.
Proof. split; [done|apply ensureLogDirectory_result]. Qed.

(** X14. Once the [.env] file is in place, [loadEnv] ends the process exactly
    when one of [SRC], [DEST] and [FILE_NAME] is undefined or empty after
    [dotenv.config]: then with code 1, after one line on the console.  This
    holds for [FILE_NAME] too, which nothing else reads. *)
Theorem loadEnv_checks_all_three_values (w : World) :
  (ensureEnvFile w).1 = Resolved tt →
  ((loadEnv w).1 = Exited 1 ↔
   ∃ name, name ∈ ["SRC"; "DEST"; "FILE_NAME"] ∧
           not_set (env_loaded w !! name) = true) ∧
  ((loadEnv w).1 = Exited 1 →
   loadEnv w =
   (Exited 1,
    emit_effects [ConsoleError msg_undefined]
      (set_env (env_loaded w) (ensureEnvFile w).2))).
Proof.
  intros Hfile. rewrite loadEnv_result.
  destruct (ensureEnvFile w) as [[[]| |] w1]; try done. simpl.
  destruct (not_set (env_loaded w !! "SRC")) eqn:Hsrc;
    destruct (not_set (env_loaded w !! "DEST")) eqn:Hdest;
    destruct (not_set (env_loaded w !! "FILE_NAME")) eqn:Hname; simpl;
    (split; [split|]); try done;
    try (intros _; eexists; split; [|eassumption]; rewrite !elem_of_cons; auto).
  intros (name & Hin & Hnot). rewrite !elem_of_cons, elem_of_nil in Hin.
  destruct Hin as [->|[->|[->|[]]]]; congruence.
Qed.

(** Start-up before [startWatching]: it ends the process with code 1, or
    hands over the directories it has found in the environment. *)
Lemma startup_result (w : World) :
  ∃ es w1,
    trace w1 = trace w ++ es ∧
    Forall startup_effect es ∧
    watcher w1 = watcher w ∧
    ((ensureLogDirectory ;; loadEnv) w = (Exited 1, w1) ∨
     ∃ srcDir destDir fileName,
       (ensureLogDirectory ;; loadEnv) w = (Resolved (srcDir, destDir, fileName), w1) ∧
       env w1 !! "SRC" = Some srcDir ∧ srcDir ≠ "" ∧
       env w1 !! "DEST" = Some destDir ∧ destDir ≠ "").
Proof.
  remember ((ensureLogDirectory ;; loadEnv) w) as r eqn:Hr.
  unfold mbind, M_bind in Hr. rewrite ensureLogDirectory_result in Hr.
  destruct (os_ensureDir logDir (fsys w)) as [[error|] fs0].
  { subst r. eexists _, _. split_and!; cycle 3;
      [left; reflexivity|by simpl|by repeat constructor|done]. }
  rewrite loadEnv_result in Hr.
  match type of Hr with context [ensureEnvFile ?w0] => set (w0' := w0) in * end.
  assert (∀ es' : list Effect,
            Forall startup_effect es' →
            Forall startup_effect
              ([FsEnsureDir logDir None;
                ConsoleLog ("Log directory is set at: " +:+ logDir)] ++ es'))
    as Hstart.
  { intros es' Hes'. apply Forall_app. split; [by repeat constructor|done]. }
  destruct (ensureEnvFile_result w0') as (es & fs' & Hes & [Heq|Heq]);
    rewrite Heq in Hr; simpl in Hr.
  - destruct (not_set (env_loaded w0' !! "SRC") || not_set (env_loaded w0' !! "DEST")
              || not_set (env_loaded w0' !! "FILE_NAME")) eqn:Hset; subst r.
    + eexists _, _. split_and!; cycle 3; [left; reflexivity| | |reflexivity].
      * subst w0'. simpl. rewrite <- !app_assoc. reflexivity.
      * apply Hstart, Forall_app. split; [done|by repeat constructor].
    + eexists _, _. split_and!; cycle 3.
      * right. eexists _, _, _. split; [reflexivity|]. simpl.
        apply orb_false_iff in Hset as [[Hsrc Hdest]%orb_false_iff _].
        unfold not_set in Hsrc, Hdest.
        destruct (env_loaded w0' !! "SRC") as [s|]; [|done].
        destruct (env_loaded w0' !! "DEST") as [d|]; [|done].
        apply bool_decide_eq_false_1 in Hsrc, Hdest. done.
      * subst w0'. simpl. rewrite <- !app_assoc. reflexivity.
      * by apply Hstart.
      * reflexivity.
  - subst r. eexists _, _. split_and!; cycle 3; [left; reflexivity| | |reflexivity].
    + subst w0'. simpl. rewrite <- !app_assoc. reflexivity.
    + by apply Hstart.
Qed.

Lemma startService_split (w : World) :
  startService w =
  match (ensureLogDirectory ;; loadEnv) w with
  | (Resolved (srcDir, destDir, _), w1) => startWatching srcDir destDir w1
  | (Rejected e, w1) => (Rejected e, w1)
  | (Exited c, w1) => (Exited c, w1)
  end.
Proof.
  unfold startService, mbind, M_bind.
  destruct (ensureLogDirectory w) as [[| |] w0]; try done.
  by destruct (loadEnv w0) as [[[[? ?] ?]| |] w1].
Qed.

(** X16. When [startService] returns, the service watches the directory that
    [SRC] names in the environment and moves to the one that [DEST] names:
    both are set and not empty, the watcher is the one of [startWatching] for
    them, and ["Watching directory"] is the last thing said. *)
Theorem startService_watches_configured_directories (w : World) :
  (startService w).1 = Resolved tt →
  let w' := (startService w).2 in
  ∃ srcDir destDir known,
    env w' !! "SRC" = Some srcDir ∧ srcDir ≠ "" ∧
    env w' !! "DEST" = Some destDir ∧ destDir ≠ "" ∧
    watcher w' = Some (service_watcher srcDir destDir known) ∧
    last (trace w') = Some (Log LInfo ("Watching directory: " +:+ srcDir)).
Proof.
  rewrite startService_split.
  destruct (startup_result w) as (es & w1 & _ & _ & _ & [Heq|Hok]).
  { by rewrite Heq. }
  destruct Hok as (srcDir & destDir & fileName & -> & Hsrc & Hs & Hdest & Hd).
  rewrite startWatching_result.
  destruct (os_watch_throws _ _ _); [done|]. intros _. simpl.
  eexists srcDir, destDir, _. split_and!; try done.
  by rewrite last_snoc.
Qed.

(** X17. Start-up begins with the log directory: when it cannot be created
    the process ends with code 1 at once, before the [.env] file is looked
    for, the environment loaded or a watcher made. *)
Theorem startService_stops_when_log_directory_fails (w : World)
    (error : JsError) (fs' : FS) :
  os_ensureDir logDir (fsys w) = (Some error, fs') →
  startService w =
  (Exited 1,
   emit_effects [FsEnsureDir logDir (Some error);
                 ConsoleError ("Error creating log directory: Error: "
                               +:+ err_message error)]
     (set_fsys fs' w)).
Proof.
  intros Hfail. unfold startService, mbind, M_bind.
  by rewrite ensureLogDirectory_result, Hfail.
Qed.

(** X18. The call [startService()] that ends the module never throws: the
    process goes on or exits with code 1.  A rejection is left unhandled only
    when start-up has come as far as [startWatching] and [chokidar.watch]
    throws there; the unhandled error is the one it throws. *)
Theorem main_only_leaves_watch_errors_unhandled (w : World) :
  ((main w).1 = Resolved tt ∨ (main w).1 = Exited 1) ∧
  ∀ e, UnhandledRejection e ∈ produced w (main w).2 →
    ∃ srcDir destDir fileName w1,
      (ensureLogDirectory ;; loadEnv) w
        = (Resolved (srcDir, destDir, fileName), w1) ∧
      os_watch_throws srcDir watch_options (fsys w1) = Some e.
Proof.
  unfold main, spawn. rewrite startService_split.
  destruct (startup_result w) as (es & w1 & Htr & Hes & _ & [Heq|Hok]).
  - rewrite Heq. split; [by right|]. simpl. intros e.
    rewrite (produced_extends _ _ _ Htr). intros Hin.
    rewrite Forall_forall in Hes. by apply Hes in Hin.
  - destruct Hok as (srcDir & destDir & fileName & Heq & _). rewrite Heq.
    rewrite startWatching_result.
    destruct (os_watch_throws srcDir watch_options (fsys w1)) as [e'|] eqn:Hthrow.
    + split; [by left|]. simpl. intros e.
      rewrite (produced_extends _ _ (es ++ [UnhandledRejection e']))
        by (simpl; by rewrite Htr, app_assoc).
      intros [Hin|Hin]%elem_of_app.
      * rewrite Forall_forall in Hes. by apply Hes in Hin.
      * apply list_elem_of_singleton in Hin as [= ->]. by eexists _, _, _, _.
    + split; [by left|]. simpl. intros e.
      rewrite (produced_extends _ _
                 (es ++ [Log LInfo ("Watching directory: " +:+ srcDir)]))
        by (simpl; by rewrite Htr, app_assoc).
      intros [Hin|Hin]%elem_of_app.
      * rewrite Forall_forall in Hes. by apply Hes in Hin.
      * by apply list_elem_of_singleton in Hin.
Qed.

(** X19. [startWatching] has no handler of its own: when [chokidar.watch]
    throws, nothing is attached or logged, the error passes through
    [startService], and the call [startService()] leaves it as an unhandled
    rejection. *)
Theorem main_leaves_watch_error_unhandled (w w1 : World)
    (srcDir destDir fileName : string) (e : JsError) :
  (ensureLogDirectory ;; loadEnv) w = (Resolved (srcDir, destDir, fileName), w1) →
  os_watch_throws srcDir watch_options (fsys w1) = Some e →
  startWatching srcDir destDir w1 = (Rejected e, w1) ∧
  startService w = (Rejected e, w1) ∧
  main w = (Resolved tt, emit_effects [UnhandledRejection e] w1).
Proof.
  intros Hstart Hthrow.
  assert (startWatching srcDir destDir w1 = (Rejected e, w1)) as Hwatch.
  { by rewrite startWatching_result, Hthrow. }
  assert (startService w = (Rejected e, w1)) as Hservice.
  { by rewrite startService_split, Hstart. }
  split_and!; try done. unfold main, spawn. by rewrite Hservice.
Qed.

(** *** More on the running service *)

Lemma adds_attempts (destDir : string) files fs es fs' :
  adds_run destDir files fs es fs' →
  ∀ f, f ∈ files →
    ∃ out, FsMove f (path_join destDir (path_basename f)) move_options out ∈ es.
Proof.
  induction 1 as [|f0 files fs es fs1 es' fs' Hrun Hadds IH]; intros f Hin.
  - by apply elem_of_nil in Hin.
  - apply elem_of_cons in Hin as [->|Hin].
    + destruct (run_first_attempt _ _ _ _ _ _ Hrun) as [rest ->].
      eexists. rewrite !elem_of_cons. right. right. right. by left.
    + destruct (IH f Hin) as [out Hout]. exists out.
      rewrite !elem_of_cons, elem_of_app. auto.
Qed.

(** X20. At a polling tick of the running service every file that the scan
    shows and the scan before did not is handed to the mover, in the order of
    the scan, with the destination made of [destDir] and its base name; no
    other file is touched; and the files of the scan are the ones known from
    then on. *)
Theorem poll_moves_every_new_file (srcDir destDir : string)
    (known files : list string) (w : World) :
  watcher w = Some (service_watcher srcDir destDir known) →
  os_scan srcDir (elapse 1000 (fsys w)) = ScanFiles files →
  let w' := (chokidar_poll w).2 in
  let es := produced w w' in
  (chokidar_poll w).1 = Resolved tt ∧
  add_events es = fresh_files known files ∧
  (∀ f, f ∈ files → f ∉ known →
     ∃ out, FsMove f (path_join destDir (path_basename f)) move_options out ∈ es) ∧
  (∀ src dest opts out, FsMove src dest opts out ∈ es →
     src ∈ files ∧ (src ∉ known) ∧
     dest = path_join destDir (path_basename src) ∧ overwrite opts = true) ∧
  watcher w' = Some (service_watcher srcDir destDir files).
Proof.
  intros Hw Hscan w' es. subst es w'.
  pose proof (poll_result _ _ _ _ Hw) as Hpoll. rewrite Hscan in Hpoll.
  destruct Hpoll as (es & fs' & Hadds & ->). simpl.
  rewrite (produced_extends _ _ (Poll 1000 :: es)) by done.
  split_and!; try done.
  - change (Poll 1000 :: es) with ([Poll 1000] ++ es).
    by rewrite add_events_app, (adds_events _ _ _ _ _ Hadds).
  - intros f Hin Hnew.
    destruct (adds_attempts _ _ _ _ _ Hadds f) as [out Hout].
    { apply list_elem_of_filter. done. }
    exists out. by right.
  - intros src dest opts out [|Hin]%elem_of_cons; [done|].
    apply (adds_moves _ _ _ _ _ Hadds) in Hin as (Hfresh & -> & ->).
    apply list_elem_of_filter in Hfresh as [? ?]. done.
Qed.

(** X21. The service deals with a file once.  After the tick at which a scan
    has shown a file, the file is neither reported nor handed to the mover
    again for as long as the scans go on showing it, also when its move has
    failed: beyond the retries of [moveFile] nothing tries again. *)
Theorem seen_file_is_not_moved_again (srcDir destDir f : string)
    (known files : list string) (n : nat) (w : World) :
  watcher w = Some (service_watcher srcDir destDir known) →
  os_scan srcDir (elapse 1000 (fsys w)) = ScanFiles files →
  f ∈ files →
  stays_listed n srcDir f (chokidar_poll w).2 →
  let w' := (chokidar_poll w).2 in
  let es := produced w' (run_polls n w').2 in
  (Emit (EvAdd f) ∉ es) ∧ (∀ dest opts out, FsMove f dest opts out ∉ es).
Proof.
  intros Hw Hscan Hin Hstays w' es. subst es w'.
  pose proof (poll_result _ _ _ _ Hw) as Hpoll. rewrite Hscan in Hpoll.
  destruct Hpoll as (es & fs' & Hadds & Heq). rewrite Heq in *. simpl in *.
  match goal with |- context [run_polls n ?w1] =>
    destruct (polls_run srcDir destDir n files w1)
      as (es2 & w2 & Heq2 & Htr & _ & _ & _ & Hold); [done|] end.
  rewrite Heq2. simpl. rewrite (produced_extends _ _ _ Htr).
  by apply Hold.
Qed.

End Facts.

(** ** The simulated platform at work *)

Import Sim.

(** On the simulated platform removing one file leaves the others. *)
Lemma sim_remove_other (p q : string) (fs : SimFS) :
  p ≠ q → sim_pathExists p fs = true → sim_pathExists p (sim_remove q fs) = true.
Proof.
  intros Hpq. unfold sim_pathExists, lookup_file. simpl.
  intros [Hfile|Hdir]%orb_true_iff; apply orb_true_iff; [left|by right].
  apply bool_decide_eq_true_1 in Hfile. apply bool_decide_eq_true_2.
  apply fmap_is_Some in Hfile as [[i f] Hfind]. apply fmap_is_Some.
  apply list_find_Some in Hfind as (Hi & Hf & _).
  apply (list_find_elem_of _ _ f); [|done].
  apply list_elem_of_filter. split; [congruence|].
  by eapply list_elem_of_lookup_2.
Qed.

(** On the simulated platform a move that fails leaves the source, and time
    takes no file or directory away. *)
Lemma sim_stays_in_place (src dest : string) :
  stays_in_place (P := sim_platform) src dest.
Proof.
  split.
  - intros fs error fs1 Hmove Hthere. simpl in *.
    unfold sim_move, sim_rename in Hmove.
    repeat case_match; simplify_eq; try done;
      apply sim_remove_other; try done;
      match goal with H : bool_decide (_ = _) = false |- _ =>
        by apply bool_decide_eq_false_1 in H end.
  - intros fs. simpl. unfold sim_pathExists, lookup_file, sim_elapse. simpl.
    intros [Hfile|Hdir]%orb_true_iff; apply orb_true_iff; [left|by right].
    apply bool_decide_eq_true_1 in Hfile. apply bool_decide_eq_true_2.
    destruct (list_find _ (sim_files fs)) as [[i f]|] eqn:Hfind;
      [|by destruct Hfile].
    by erewrite list_find_app_l.
Qed.

(** On the simulated platform only a move without [overwrite] is refused
    because the destination exists. *)
Lemma sim_move_overwrites (src dest : string) (opts : MoveOptions)
    (fs fs1 : SimFS) (error : JsError) :
  sim_move src dest opts fs = (Some error, fs1) →
  is_dest_exists error → overwrite opts = false.
Proof.
  unfold sim_move, sim_rename, is_dest_exists. intros Hmove.
  repeat case_match; by simplify_eq.
Qed.

(** *** POSIX paths *)

Lemma split_slash_nonempty (s : string) : split_slash s ≠ [].
Proof. destruct s as [|a s]; simpl; [done|]. by repeat case_match. Qed.

Lemma split_slash_app (a b : string) :
  split_slash (a +:+ "/" +:+ b) = split_slash a ++ split_slash b.
Proof.
  induction a as [|c a IH]; simpl; [done|].
  rewrite IH. destruct (Ascii.eqb c slash); [done|].
  pose proof (split_slash_nonempty a). by destruct (split_slash a).
Qed.

Lemma split_slash_segments (s : string) : Forall segment (split_slash s).
Proof.
  induction s as [|c s IH]; simpl.
  - by repeat constructor.
  - destruct (Ascii.eqb c slash) eqn:Hc.
    + by constructor.
    + pose proof (split_slash_nonempty s).
      destruct (split_slash s) as [|seg segs]; [done|].
      apply Forall_cons in IH as [Hseg Hsegs]. constructor; [|done].
      unfold segment in *. simpl. by rewrite Hc, Hseg.
Qed.

Lemma split_join_slash (segs : list string) :
  segs ≠ [] → Forall segment segs → split_slash (join_slash segs) = segs.
Proof.
  induction segs as [|seg segs IH]; [done|]. intros _ Hsegs.
  apply Forall_cons in Hsegs as [Hseg Hsegs].
  destruct segs as [|seg' segs]; [done|].
  change (join_slash (seg :: seg' :: segs))
    with (seg +:+ "/" +:+ join_slash (seg' :: segs)).
  by rewrite split_slash_app, Hseg, IH.
Qed.

Lemma normalize_step_named (above : bool) (res : list string) (seg : string) :
  segment seg → Forall named res → Forall named (normalize_step above res seg).
Proof.
  intros Hseg Hres. unfold normalize_step.
  repeat case_match; try done.
  - apply Forall_app. split; [done|]. repeat constructor; [done|].
    by intros ->.
  - rewrite Forall_forall in *. intros x Hx. apply Hres.
    destruct (last_Some res s) as [[l' ->] _]; [done|].
    rewrite removelast_last in Hx. apply elem_of_app. by left.
  - repeat constructor; [done|]. by intros ->.
  - apply Forall_app. split; [done|]. repeat constructor; [done|].
    intros ->. by rewrite bool_decide_eq_true_2 in *.
Qed.

Lemma normalize_named (above : bool) (segs res : list string) :
  Forall segment segs → Forall named res →
  Forall named (foldl (normalize_step above) res segs).
Proof.
  revert res. induction segs as [|seg segs IH]; intros res Hsegs Hres; [done|].
  apply Forall_cons in Hsegs as [Hseg Hsegs]. simpl.
  apply IH; [done|]. by apply normalize_step_named.
Qed.

Lemma normalize_step_name (above : bool) (res : list string) (n : string) :
  file_name n → normalize_step above res n = res ++ [n].
Proof.
  intros (_ & H0 & H1 & H2). unfold normalize_step.
  by rewrite !bool_decide_eq_false_2.
Qed.

Lemma posix_basename_snoc (segs : list string) (n : string) (pre : string) :
  n ≠ "" →
  split_slash pre = segs ++ [n] → posix_basename pre = n.
Proof.
  intros Hn Hsplit. unfold posix_basename. rewrite Hsplit, filter_app.
  rewrite (filter_cons_True _ n) by done.
  by rewrite filter_nil, last_snoc.
Qed.

Lemma append_empty_r (s : string) : s +:+ "" = s.
Proof.
  induction s as [|c s IH]; [done|].
  change (String c (s +:+ "") = String c s). by f_equal.
Qed.

(** On a POSIX machine the path made of a directory and a file name has
    this file name as its base name. *)
Lemma posix_basename_join (d n : string) :
  file_name n → posix_basename (posix_join d n) = n.
Proof.
  intros Hname. pose proof Hname as (Hseg & H0 & H1 & H2).
  assert (∀ p segs, p ≠ "" → split_slash p = segs ++ [n] →
            posix_basename (posix_normalize p) = n) as Hnorm.
  { intros p segs Hp Hsplit. unfold posix_normalize.
    rewrite bool_decide_eq_false_2 by done. rewrite Hsplit.
    rewrite foldl_app. simpl. rewrite normalize_step_name by done.
    set (res := foldl _ [] segs).
    assert (Forall named res) as Hres.
    { apply normalize_named; [|done].
      pose proof (split_slash_segments p) as Hall. rewrite Hsplit in Hall.
      by apply Forall_app in Hall as [? _]. }
    assert (Forall segment (res ++ [n])) as Hsegs.
    { apply Forall_app. split; [|by repeat constructor].
      eapply Forall_impl; [exact Hres|]. by intros ? [? _]. }
    assert (split_slash (join_slash (res ++ [n])) = res ++ [n]) as Hback.
    { apply split_join_slash; [|done]. by destruct res. }
    assert (join_slash (res ++ [n]) ≠ "") as Hbody.
    { intros Hempty. rewrite Hempty in Hback. simpl in Hback.
      destruct res as [|? [|? ?]]; simplify_eq. }
    rewrite (bool_decide_eq_false_2 (join_slash _ = "")) by done.
    rewrite last_snoc. rewrite (bool_decide_eq_false_2 (Some n = Some "")) by congruence.
    rewrite append_empty_r.
    destruct (String.prefix "/" p).
    - apply (posix_basename_snoc ("" :: res)); [done|].
      change (split_slash ("/" +:+ join_slash (res ++ [n])))
        with ("" :: split_slash (join_slash (res ++ [n]))).
      by rewrite Hback.
    - by apply (posix_basename_snoc res). }
  unfold posix_join. rewrite (bool_decide_eq_false_2 (n = "")) by done.
  case_bool_decide as Hd.
  - apply (Hnorm n []); done.
  - apply (Hnorm _ (split_slash d)).
    + destruct d; done.
    + by rewrite split_slash_app, Hseg.
Qed.

(** The base name of a path that has one is a segment. *)
Lemma posix_basename_segment (p : string) : segment (posix_basename p).
Proof.
  unfold posix_basename.
  destruct (last _) as [n|] eqn:Hlast; [|done]. simpl.
  apply last_Some in Hlast as [l' Hl].
  assert (n ∈ filter (λ seg, seg ≠ "") (split_slash p)) as Hin.
  { rewrite Hl. apply elem_of_app. right. by left. }
  apply list_elem_of_filter in Hin as [_ Hin].
  pose proof (split_slash_segments p) as Hall. rewrite Forall_forall in Hall.
  by apply Hall.
Qed.

(** On a POSIX machine a detected file whose base name is neither empty nor
    [.] nor [..] is moved to a path with the same base name. *)
Lemma posix_destination_keeps_name (destDir filePath : string) (w : World)
    src dest opts out :
  posix_basename filePath ≠ "" →
  posix_basename filePath ≠ "." →
  posix_basename filePath ≠ ".." →
  FsMove src dest opts out ∈ produced w (onAdd destDir filePath w).2 →
  posix_basename dest = posix_basename src.
Proof.
  intros H0 H1 H2 Hin.
  apply onAdd_moves in Hin as [-> ->].
  apply posix_basename_join. split_and!; try done.
  apply posix_basename_segment.
Qed.

(** *** Runs of the service *)

(** A run of C1: the file is held open for 1500 ms more, so the first
    attempt fails busy, and the mover warns, waits a second and tries
    again. *)
Lemma moveFile_retries_on_busy_witness :
  let w := start (fs_busy 1500) in
  let es := produced w (moveFile report report_dest 3 w).2 in
  let fs1 := sim_remove report_dest (fsys w) in
  os_move report report_dest move_options (fsys w) = (Some (EBUSY report), fs1) ∧
  (3 > 0 ∧ err_code (EBUSY report) = Some "EBUSY" →
   moveFile report report_dest 3 w =
   moveFile report report_dest (3 - 1)
     (emit_effects [Log LInfo (msg_attempt report report_dest);
                    FsMove report report_dest move_options (Some (EBUSY report));
                    Log LWarn (msg_retry 3);
                    Delay 1000] (set_fsys (elapse 1000 fs1) w)) ∧
   ∃ rest : list Effect,
     es = [Log LInfo (msg_attempt report report_dest);
           FsMove report report_dest move_options (Some (EBUSY report));
           Log LWarn (msg_retry 3);
           Delay 1000;
           Log LInfo (msg_attempt report report_dest);
           FsMove report report_dest move_options
             (os_move report report_dest move_options (elapse 1000 fs1)).1]
          ++ rest) ∧
  (¬ (3 > 0 ∧ err_code (EBUSY report) = Some "EBUSY") →
   es = [Log LInfo (msg_attempt report report_dest);
         FsMove report report_dest move_options (Some (EBUSY report));
         Log LError (msg_failed (EBUSY report))]) ∧
  (∀ ms, Delay ms ∈ es → ms = 1000).
Proof.
  split; [reflexivity|].
  apply (moveFile_retries_on_busy report report_dest 3 (start (fs_busy 1500))
           (EBUSY report) (sim_remove report_dest (fs_busy 1500))).
  reflexivity.
Defined.

(** A run of C2: the service may not touch the file. *)
Lemma moveFile_abandons_on_other_error_witness :
  let w := start fs_forbidden in
  moveFile report report_dest 3 w =
  (Resolved tt,
   emit_effects [Log LInfo (msg_attempt report report_dest);
                 FsMove report report_dest move_options (Some (EACCES report));
                 Log LError (msg_failed (EACCES report))] (set_fsys fs_forbidden w)) ∧
  let es := produced w (moveFile report report_dest 3 w).2 in
  count (is_log LError) es = 1%nat ∧
  count is_attempt es = 1%nat ∧
  count (is_log LWarn) es = 0%nat ∧
  count is_delay es = 0%nat.
Proof.
  apply (moveFile_abandons_on_other_error report report_dest 3
           (start fs_forbidden) (EACCES report) fs_forbidden).
  - reflexivity.
  - discriminate.
Defined.

(** A run of C3: the file is held open for a minute.  The failed moves
    take the older file at the destination away and leave the source. *)
Lemma moveFile_gives_up_when_always_busy_witness :
  let w := start (fs_busy 60000) in
  let c := (moveFile report report_dest default_retries w).1 in
  let w' := (moveFile report report_dest default_retries w).2 in
  let es := produced w w' in
  (stays_in_place report report_dest ∧
   os_pathExists report (fsys w) = true ∧
   lookup_file report (fsys w') = Some "new" ∧
   lookup_file report_dest (fsys w') = None) ∧
  c = Resolved tt ∧
  count is_attempt es = 4%nat ∧
  count (is_log LWarn) es = 3%nat ∧
  count (is_log LError) es = 1%nat ∧
  count is_effective_move es = 0%nat ∧
  (∃ error, last es = Some (Log LError (msg_failed error)) ∧
            err_code error = Some "EBUSY") ∧
  (stays_in_place report report_dest →
   os_pathExists report (fsys w) = true →
   os_pathExists report (fsys w') = true).
Proof.
  split.
  - split_and!; [apply sim_stays_in_place|reflexivity|reflexivity|reflexivity].
  - apply (moveFile_gives_up_when_always_busy report report_dest
             (start (fs_busy 60000))).
    change (Z.to_nat default_retries) with 3%nat. cbn [always_busy].
    repeat (eexists _, _; split; [reflexivity|]; split; [reflexivity|]).
    done.
Defined.

(** A run of C4: the destination holds an older file, which the one call
    of [fs.move] replaces. *)
Lemma moveFile_overwrites_destination_witness :
  let w := start fs_ready in
  let w' := (moveFile report report_dest 3 w).2 in
  let es := produced w w' in
  (lookup_file report_dest (fsys w) = Some "old" ∧
   lookup_file report_dest (fsys w') = Some "new" ∧
   lookup_file report (fsys w') = None ∧
   count is_attempt es = 1%nat) ∧
  (∃ rest,
     es = Log LInfo (msg_attempt report report_dest)
          :: FsMove report report_dest {| overwrite := true |}
               (os_move report report_dest {| overwrite := true |} (fsys w)).1
          :: rest) ∧
  (∀ fs',
     os_move report report_dest {| overwrite := true |} (fsys w) = (None, fs') →
     moveFile report report_dest 3 w =
     (Resolved tt,
      emit_effects [Log LInfo (msg_attempt report report_dest);
                    FsMove report report_dest {| overwrite := true |} None;
                    Log LInfo (msg_moved report report_dest)] (set_fsys fs' w))) ∧
  (∀ src dest opts out, FsMove src dest opts out ∈ es →
     src = report ∧ dest = report_dest ∧ overwrite opts = true ∧
     ∀ error, out = Some error → ¬ is_dest_exists error) ∧
  (∀ error, Log LError (msg_failed error) ∈ es → ¬ is_dest_exists error) ∧
  (count is_effective_move es ≤ 1)%nat ∧
  (last es = Some (Log LInfo (msg_moved report report_dest)) →
   count is_effective_move es = 1%nat ∧
   ∃ fs0, os_move report report_dest {| overwrite := true |} fs0
          = (None, fsys w')).
Proof.
  split; [by vm_compute|].
  apply (moveFile_overwrites_destination report report_dest 3 (start fs_ready)).
  - reflexivity.
  - intros opts fs error fs1. apply sim_move_overwrites.
Defined.

(** A run of C5: a directory with one old file, where a new file appears
    after 2500 ms.  Four ticks report the new file and leave the old one
    alone. *)
Lemma initial_files_are_not_moved_witness :
  let w0 := start fs_arrival in
  let w1 := (startWatching "/data/in" "/data/out" w0).2 in
  (initial_files "/data/in" (fsys w0) = ["/data/in/old.csv"] ∧
   stays_listed 4 "/data/in" "/data/in/old.csv" w1 ∧
   add_events (produced w1 (run_polls 4 w1).2) = ["/data/in/sub/fresh.csv"]) ∧
  produced w0 w1 = [Log LInfo ("Watching directory: " +:+ "/data/in")] ∧
  (∃ wt, watcher w1 = Some wt ∧
         ignoreInitial (w_options wt) = true ∧
         usePolling (w_options wt) = true ∧
         interval (w_options wt) = 1000 ∧
         w_known wt = initial_files "/data/in" (fsys w0)) ∧
  ∀ n,
    let w := (run_polls n w1).2 in
    (run_polls n w1).1 = Resolved tt ∧
    (∀ ms, Poll ms ∈ produced w1 w → ms = 1000) ∧
    (∀ f, f ∈ initial_files "/data/in" (fsys w0) →
          stays_listed n "/data/in" f w1 →
          (Emit (EvAdd f) ∉ produced w1 w) ∧
          (∀ d o out, FsMove f d o out ∉ produced w1 w)) ∧
    (∃ known, watcher w = Some (service_watcher "/data/in" "/data/out" known) ∧
       ∀ files, os_scan "/data/in" (elapse 1000 (fsys w)) = ScanFiles files →
         add_events (produced w (chokidar_poll w).2) = fresh_files known files).
Proof.
  split.
  - split_and!; [reflexivity| |reflexivity].
    vm_compute. split_and!; try done; repeat constructor.
  - apply (initial_files_are_not_moved "/data/in" "/data/out" (start fs_arrival)).
    reflexivity.
Defined.

(** C6 as stated fails.  On a machine where [./src] does not exist the
    service starts, reports no failure, does not exit and goes on to watch
    and poll; likewise where [./src] exists and may not be read. *)
Lemma missing_directory_is_watched :
  let w := (main (start fs_bare)).2 in
  let u := (main (start fs_unreadable)).2 in
  (os_pathExists "./src" fs_bare = false ∧
   os_pathExists "./src" (fsys w) = false ∧
   (main (start fs_bare)).1 = Resolved tt ∧
   watcher w = Some (service_watcher "./src" "./dest" []) ∧
   last (trace w) = Some (Log LInfo "Watching directory: ./src") ∧
   count is_failure_report (trace w) = 0%nat ∧
   (run_polls 3 w).1 = Resolved tt) ∧
  (os_scan "./src" fs_unreadable = ScanError (EACCES "./src") ∧
   (main (start fs_unreadable)).1 = Resolved tt ∧
   watcher u = Some (service_watcher "./src" "./dest" []) ∧
   last (trace u) = Some (Log LInfo "Watching directory: ./src") ∧
   count is_failure_report (trace u) = 0%nat ∧
   (run_polls 3 u).1 = Resolved tt).
Proof. vm_compute. done. Defined.

(** A run of C6 as the code has it: the directory is missing. *)
Lemma startWatching_makes_no_check_witness :
  let w := start fs_bare in
  os_pathExists "./src" (fsys w) = false ∧
  startWatching "./src" "./dest" w =
  (Resolved tt,
   emit_effects [Log LInfo ("Watching directory: " +:+ "./src")]
     (set_watcher
        (Some (service_watcher "./src" "./dest" (initial_files "./src" (fsys w))))
        w)) ∧
  count is_failure_report (produced w (startWatching "./src" "./dest" w).2) = 0%nat ∧
  ∀ n, (run_polls n (startWatching "./src" "./dest" w).2).1 = Resolved tt.
Proof.
  split; [reflexivity|].
  apply (startWatching_makes_no_check "./src" "./dest" (start fs_bare)).
  reflexivity.
Defined.

(** C7 as stated fails.  A move that takes effect and a move that fails
    for good resolve with the same value; only the log tells them apart. *)
Lemma moveFile_value_is_the_same :
  let moved := moveFile report report_dest 3 (start fs_ready) in
  let failed := moveFile report report_dest 3 (start fs_forbidden) in
  moved.1 = failed.1 ∧
  lookup_file report_dest (fsys moved.2) = Some "new" ∧
  last (trace moved.2) = Some (Log LInfo (msg_moved report report_dest)) ∧
  lookup_file report_dest (fsys failed.2) = None ∧
  last (trace failed.2) = Some (Log LError (msg_failed (EACCES report))).
Proof. vm_compute. done. Defined.

(** A run of C8: the watched directory may not be read, so the second scan
    fails as the first did. *)
Lemma watcher_error_is_logged_only_witness :
  let w0 := start fs_unreadable in
  let w1 := (startWatching "./src" "./dest" w0).2 in
  let e := EACCES "./src" in
  let w := (run_polls 1 w1).2 in
  emit (EvError e) w =
  (Resolved tt,
   emit_effects [Emit (EvError e);
                 Log LError ("Watcher error: " +:+ err_message e)] w) ∧
  (∀ m, (run_polls m (emit (EvError e) w).2).1 = Resolved tt ∧
        serving "./src" "./dest" (run_polls m (emit (EvError e) w).2).2) ∧
  (os_scan "./src" (elapse 1000 (fsys w)) = ScanError e →
   chokidar_poll w =
   (Resolved tt,
    emit_effects [Poll 1000; Emit (EvError e);
                  Log LError ("Watcher error: " +:+ err_message e)]
      (set_fsys (elapse 1000 (fsys w)) w))).
Proof.
  apply (watcher_error_is_logged_only "./src" "./dest" 1 (start fs_unreadable)).
  reflexivity.
Defined.

(** The service on the simulated machine: a file that arrives in a
    subdirectory is moved to the destination directory itself, under its own
    name. *)
Example arrival_is_flattened :
  let w := ((startWatching "/data/in" "/data/out" ;; run_polls 4) (start fs_arrival)).2 in
  FsMove "/data/in/sub/fresh.csv" "/data/out/fresh.csv" move_options None ∈ trace w ∧
  sim_files (fsys w) = [("/data/in/old.csv", "old"); ("/data/out/fresh.csv", "fresh")].
Proof. vm_compute. split; [|done]. repeat constructor. Qed.

(** A file held open for 1500 ms is moved at the third attempt, after two
    warnings. *)
Example busy_file_is_moved_at_third_attempt :
  let es := trace (moveFile report report_dest default_retries (start (fs_busy 1500))).2 in
  count is_attempt es = 3%nat ∧
  count (is_log LWarn) es = 2%nat ∧
  count (is_log LError) es = 0%nat ∧
  last es = Some (Log LInfo (msg_moved report report_dest)).
Proof. by vm_compute. Qed.

(** A move with [overwrite] that fails because the source is held open has
    already taken the older file at the destination away; the source is
    left. *)
Example failed_overwrite_removes_destination :
  let r := os_move report report_dest move_options (fs_busy 1500) in
  r.1 = Some (EBUSY report) ∧
  lookup_file report_dest r.2 = None ∧
  lookup_file report r.2 = Some "new".
Proof. by vm_compute. Qed.

(** A file is not moved onto itself. *)
Example move_onto_itself_is_refused :
  os_move report report move_options fs_ready = (Some same_path, fs_ready) ∧
  err_code same_path = None.
Proof. by vm_compute. Qed.

(** Without a value for [SRC] the service ends in [process.exit(1)]. *)
Example empty_SRC_exits :
  let w := {| fsys := fs_bare; env := {["SRC" := ""]}; watcher := None; trace := [] |} in
  (main w).1 = Exited 1 ∧
  watcher (main w).2 = None ∧
  last (trace (main w).2) =
    Some (ConsoleError "Error: SRC, DEST, and FILE_NAME must be defined in the environment variables").
Proof. by vm_compute. Qed.

(** *** Runs for the further properties *)

(** On the simulated platform a file that has been written exists. *)
Lemma sim_written_file_exists (file data : string) (fs fs' : SimFS) :
  sim_writeFile file data fs = (None, fs') → sim_pathExists file fs' = true.
Proof.
  unfold sim_writeFile. case_match; [done|]. intros [= <-].
  unfold sim_pathExists, lookup_file. simpl.
  apply orb_true_iff. left. apply bool_decide_eq_true_2.
  apply fmap_is_Some.
  apply (list_find_elem_of _ _ (file, data)); [|done].
  apply elem_of_app. right. by left.
Qed.

(** A run of X3: no retries, and a file held open for a minute. *)
Lemma moveFile_without_retries_tries_once_witness :
  let w := start (fs_busy 60000) in
  let es := produced w (moveFile report report_dest 0 w).2 in
  count is_attempt es = 1%nat ∧
  count (is_log LWarn) es = 0%nat ∧
  count is_delay es = 0%nat ∧
  ∀ error fs1,
    os_move report report_dest move_options (fsys w) = (Some error, fs1) →
    moveFile report report_dest 0 w =
    (Resolved tt,
     emit_effects [Log LInfo (msg_attempt report report_dest);
                   FsMove report report_dest move_options (Some error);
                   Log LError (msg_failed error)] (set_fsys fs1 w)).
Proof.
  apply (moveFile_without_retries_tries_once report report_dest 0
           (start (fs_busy 60000))).
  lia.
Defined.

(** A run of X4: the file is held open for 1500 ms, so it is busy at two
    attempts and free at the third. *)
Lemma moveFile_moves_once_the_file_is_free_witness :
  let w := start (fs_busy 1500) in
  let es := produced w (moveFile report report_dest 3 w).2 in
  count is_attempt es = 3%nat ∧
  count (is_log LWarn) es = 2%nat ∧
  total_delay es = 1000 * Z.of_nat 2 ∧
  count (is_log LError) es = 0%nat ∧
  count is_effective_move es = 1%nat ∧
  last es = Some (Log LInfo (msg_moved report report_dest)).
Proof.
  apply (moveFile_moves_once_the_file_is_free report report_dest 3 2
           (start (fs_busy 1500))).
  - cbn [busy_then_free].
    repeat (eexists _, _; split; [reflexivity|]; split; [reflexivity|]).
    eexists. reflexivity.
  - lia.
Defined.

(** A run of X5: one retry, and a file held open for a minute. *)
Lemma moveFile_spends_all_retries_witness :
  let w := start (fs_busy 60000) in
  let es := produced w (moveFile report report_dest 1 w).2 in
  count is_attempt es = S (Z.to_nat 1) ∧
  count (is_log LWarn) es = Z.to_nat 1 ∧
  total_delay es = 1000 * 1 ∧
  count (is_log LError) es = 1%nat ∧
  count is_effective_move es = 0%nat ∧
  ∃ error, last es = Some (Log LError (msg_failed error)) ∧
           err_code error = Some "EBUSY".
Proof.
  apply (moveFile_spends_all_retries report report_dest 1
           (start (fs_busy 60000))).
  - lia.
  - change (Z.to_nat 1) with 1%nat. cbn [always_busy].
    repeat (eexists _, _; split; [reflexivity|]; split; [reflexivity|]).
    done.
Defined.

(** A run of X7: the same files, with and without a [FILE_NAME] that names
    another file. *)
Lemma moveFile_depends_on_files_only_witness :
  let w1 := start fs_ready in
  let w2 := start_with {["FILE_NAME" := "other.txt"]} fs_ready in
  produced w1 (moveFile report report_dest 3 w1).2
    = produced w2 (moveFile report report_dest 3 w2).2 ∧
  fsys (moveFile report report_dest 3 w1).2
    = fsys (moveFile report report_dest 3 w2).2.
Proof.
  apply (moveFile_depends_on_files_only report report_dest 3 (start fs_ready)
           (start_with {["FILE_NAME" := "other.txt"]} fs_ready)).
  reflexivity.
Defined.

(** A run of X9: the user's [.env] file is there. *)
Lemma ensureEnvFile_keeps_existing_file_witness :
  let w := start fs_configured in
  ensureEnvFile w = (Resolved tt, w) ∧
  ∀ file data out, FsWriteFile file data out ∉ produced w (ensureEnvFile w).2.
Proof.
  apply (ensureEnvFile_keeps_existing_file (start fs_configured)).
  reflexivity.
Defined.

(** Runs of X10: no [.env] file, on a machine where it can be written and
    on one where it cannot. *)
Lemma ensureEnvFile_writes_defaults_witness :
  (let w := start fs_bare in
   ensureEnvFile w =
   match os_writeFile envFilePath defaultEnvContent (fsys w) with
   | (None, fs') =>
     (Resolved tt,
      emit_effects [FsWriteFile envFilePath defaultEnvContent None;
                    ConsoleLog ".env file created with default values."]
        (set_fsys fs' w))
   | (Some error, fs') =>
     (Exited 1,
      emit_effects [FsWriteFile envFilePath defaultEnvContent (Some error);
                    ConsoleError ("Error creating .env file: Error: "
                                  +:+ err_message error)]
        (set_fsys fs' w))
   end) ∧
  (ensureEnvFile (start fs_bare)).1 = Resolved tt ∧
  lookup_file "/srv/app/.env" (fsys (ensureEnvFile (start fs_bare)).2)
    = Some defaultEnvContent ∧
  (ensureEnvFile (start fs_no_env)).1 = Exited 1.
Proof.
  split; [|by vm_compute].
  apply (ensureEnvFile_writes_defaults (start fs_bare)). reflexivity.
Defined.

(** A run of X11: the file written by the first run is found by the
    second. *)
Lemma ensureEnvFile_second_run_does_nothing_witness :
  let w := start fs_bare in
  ensureEnvFile (ensureEnvFile w).2 = (Resolved tt, (ensureEnvFile w).2).
Proof.
  apply (ensureEnvFile_second_run_does_nothing (start fs_bare)).
  - intros fs fs'. apply sim_written_file_exists.
  - reflexivity.
Defined.

(** A run of X14: [SRC] is set, and empty. *)
Lemma loadEnv_checks_all_three_values_witness :
  let w := start_with {["SRC" := ""]} fs_bare in
  ((loadEnv w).1 = Exited 1 ↔
   ∃ name, name ∈ ["SRC"; "DEST"; "FILE_NAME"] ∧
           not_set (env_loaded w !! name) = true) ∧
  ((loadEnv w).1 = Exited 1 →
   loadEnv w =
   (Exited 1,
    emit_effects [ConsoleError msg_undefined]
      (set_env (env_loaded w) (ensureEnvFile w).2))).
Proof.
  apply (loadEnv_checks_all_three_values (start_with {["SRC" := ""]} fs_bare)).
  reflexivity.
Defined.

(** A run of X15: the log directory cannot be created. *)
Lemma startService_exits_before_watching_witness :
  let w := start fs_no_logs in
  (startService w).1 = Exited 1 ∧
  1 = 1 ∧ watcher (startService w).2 = watcher w.
Proof.
  split; [reflexivity|].
  apply (startService_exits_before_watching (start fs_no_logs) 1).
  reflexivity.
Defined.

(** A run of X16: the directories of the user's [.env] file. *)
Lemma startService_watches_configured_directories_witness :
  let w' := (startService (start fs_configured)).2 in
  ∃ srcDir destDir known,
    env w' !! "SRC" = Some srcDir ∧ srcDir ≠ "" ∧
    env w' !! "DEST" = Some destDir ∧ destDir ≠ "" ∧
    watcher w' = Some (service_watcher srcDir destDir known) ∧
    last (trace w') = Some (Log LInfo ("Watching directory: " +:+ srcDir)).
Proof.
  apply (startService_watches_configured_directories (start fs_configured)).
  reflexivity.
Defined.

(** A run of X17: the log directory cannot be created. *)
Lemma startService_stops_when_log_directory_fails_witness :
  let w := start fs_no_logs in
  let error := EACCES "/srv/app/logs" in
  startService w =
  (Exited 1,
   emit_effects [FsEnsureDir logDir (Some error);
                 ConsoleError ("Error creating log directory: Error: "
                               +:+ err_message error)]
     (set_fsys fs_no_logs w)).
Proof.
  apply (startService_stops_when_log_directory_fails (start fs_no_logs)
           (EACCES "/srv/app/logs") fs_no_logs).
  reflexivity.
Defined.

(** A run of X19: a chokidar that refuses a missing directory, on the
    machine without [./src]. *)
Lemma main_leaves_watch_error_unhandled_witness :
  let w := strict_start fs_bare in
  let w1 := ((ensureLogDirectory ;; loadEnv) w).2 in
  let e := ENOENT "./src" in
  startWatching "./src" "./dest" w1 = (Rejected e, w1) ∧
  startService w = (Rejected e, w1) ∧
  main w = (Resolved tt, emit_effects [UnhandledRejection e] w1).
Proof.
  apply (@main_leaves_watch_error_unhandled strict_platform
           (strict_start fs_bare)
           ((@mbind (@M strict_platform) _ _ _ (λ _, loadEnv) ensureLogDirectory)
              (strict_start fs_bare)).2
           "./src" "./dest" "example.txt" (ENOENT "./src")).
  - reflexivity.
  - reflexivity.
Defined.

(** A run of X20: the third tick after the start, at which a scan shows the
    file that has arrived in a subdirectory. *)
Lemma poll_moves_every_new_file_witness :
  let w := (run_polls 2 (startWatching "/data/in" "/data/out" (start fs_arrival)).2).2 in
  let known := ["/data/in/old.csv"] in
  let files := ["/data/in/old.csv"; "/data/in/sub/fresh.csv"] in
  let w' := (chokidar_poll w).2 in
  let es := produced w w' in
  (chokidar_poll w).1 = Resolved tt ∧
  add_events es = fresh_files known files ∧
  (∀ f, f ∈ files → f ∉ known →
     ∃ out, FsMove f (path_join "/data/out" (path_basename f)) move_options out ∈ es) ∧
  (∀ src dest opts out, FsMove src dest opts out ∈ es →
     src ∈ files ∧ (src ∉ known) ∧
     dest = path_join "/data/out" (path_basename src) ∧ overwrite opts = true) ∧
  watcher w' = Some (service_watcher "/data/in" "/data/out" files).
Proof.
  apply (poll_moves_every_new_file "/data/in" "/data/out"
           ["/data/in/old.csv"] ["/data/in/old.csv"; "/data/in/sub/fresh.csv"]
           (run_polls 2 (startWatching "/data/in" "/data/out" (start fs_arrival)).2).2).
  - reflexivity.
  - reflexivity.
Defined.

(** A run of X21: a file appears that the service may not touch.  Its move
    fails at the first tick, and the three ticks that follow leave it
    alone. *)
Lemma seen_file_is_not_moved_again_witness :
  let w := (startWatching "/data/in" "/data/out" (start fs_stuck)).2 in
  let f := "/data/in/locked.csv" in
  let w' := (chokidar_poll w).2 in
  let es := produced w' (run_polls 3 w').2 in
  (count is_attempt (produced w w') = 1%nat ∧
   count (is_log LError) (produced w w') = 1%nat ∧
   lookup_file f (fsys (run_polls 3 w').2) = Some "kept") ∧
  (Emit (EvAdd f) ∉ es) ∧ (∀ dest opts out, FsMove f dest opts out ∉ es).
Proof.
  split; [by vm_compute|].
  apply (seen_file_is_not_moved_again "/data/in" "/data/out"
           "/data/in/locked.csv" [] ["/data/in/locked.csv"] 3
           (startWatching "/data/in" "/data/out" (start fs_stuck)).2).
  - reflexivity.
  - reflexivity.
  - by left.
  - vm_compute. split_and!; try done; repeat constructor.
Defined.
